(** * Shortage-tracking sheet service: model and verified properties

    Shallow embedding of [MockSheetService] (the in-browser stand-in for
    the spreadsheet backend of the production-scheduling dashboard) and
    of the one guard of the [UserManagement] view that the user
    collection relies on.

    Conventions of the embedding:
    - a JS string is a [string] holding its UTF-8 bytes; [===] on
      strings is Leibniz equality, a string is truthy iff it is not
      empty;
    - an optional field ([stage?], [productPartNumber?], ...) is an
      [option string], [None] standing for [undefined];
    - [shortageQty] is an integer ([Z]); the code only assigns it and
      compares it with [0];
    - a plain object used as a dictionary ([Record<string, T>]) and a
      [Map]/[Set] keyed by strings are [gmap string _] / [gset string]
      (work orders are not taken among the property names every object
      inherits, such as ['constructor']);
    - rows are objects mutated in place: the tracking schedule is a list
      and a reference to a row is its index in that list;
    - [Date.now()], [Math.random()] and [String.prototype.toLowerCase]
      are supplied by the host ([Runtime]);
    - [localStorage] holds at most one saved copy of the database
      ([JSON.parse (JSON.stringify db)] is taken to be [db]);
    - the artificial [setTimeout] delays are dropped. *)

From stdpp Require Import gmap strings list fin_maps pretty.

#[local] Set Warnings "-clear-no-such-hyp".

Open Scope string_scope.
Open Scope list_scope.
Open Scope nat_scope.

(* ===================================================================== *)
(** ** JavaScript string helpers *)
(* ===================================================================== *)

(** Truthiness of a string value ([if (s)], [s || d]). *)
Definition truthy (s : string) : bool := negb (bool_decide (s = "")).

(** Truthiness of a possibly [undefined] string. *)
Definition truthy_opt (o : option string) : bool :=
  match o with
  | Some s => truthy s
  | None => false
  end.

(** [o || d] for a possibly [undefined] string [o]. *)
Definition or_else (o : option string) (d : string) : string :=
  match o with
  | Some s => if truthy s then s else d
  | None => d
  end.

Definition byte_of (a : Ascii.ascii) : N := Ascii.N_of_ascii a.

(** One-byte white space and line terminators: TAB, LF, VT, FF, CR, SP. *)
Definition ws1 (a : Ascii.ascii) : bool :=
  let n := byte_of a in
  ((9 <=? n) && (n <=? 13) || (n =? 32))%N.

(** U+00A0, encoded on two bytes. *)
Definition ws2 (a b : Ascii.ascii) : bool :=
  ((byte_of a =? 194) && (byte_of b =? 160))%N.

(** U+1680, U+2000..U+200A, U+2028, U+2029, U+202F, U+205F, U+3000 and
    U+FEFF, encoded on three bytes. *)
Definition ws3 (a b c : Ascii.ascii) : bool :=
  let x := byte_of a in
  let y := byte_of b in
  let z := byte_of c in
  ((x =? 225) && (y =? 154) && (z =? 128)
   || (x =? 226) && (y =? 128)
        && ((128 <=? z) && (z <=? 138) || (z =? 168) || (z =? 169) || (z =? 175))
   || (x =? 226) && (y =? 129) && (z =? 159)
   || (x =? 227) && (y =? 128) && (z =? 128)
   || (x =? 239) && (y =? 187) && (z =? 191))%N.

Fixpoint trimStart (s : string) : string :=
  match s with
  | EmptyString => EmptyString
  | String a r1 =>
      if ws1 a then trimStart r1
      else match r1 with
           | EmptyString => s
           | String b r2 =>
               if ws2 a b then trimStart r2
               else match r2 with
                    | EmptyString => s
                    | String c r3 => if ws3 a b c then trimStart r3 else s
                    end
           end
  end.

Fixpoint trimEnd (s : string) : string :=
  match s with
  | EmptyString => EmptyString
  | String a r =>
      if bool_decide (trimStart s = "") then "" else String a (trimEnd r)
  end.

(** [String.prototype.trim]. *)
Definition trim (s : string) : string := trimEnd (trimStart s).

(* ===================================================================== *)
(** ** Data model ([types.ts]) *)
(* ===================================================================== *)

Inductive UserRole : Type :=
  | ADMIN
  | SCHEDULER
  | PURCHASER
  | BUSINESS.

Record UserRoleRow : Type := {
  username : string;
  role : UserRole
}.

Record ERPRawRow : Type := {
  raw_id : string;
  raw_model : string;
  raw_workOrder : string;
  raw_partNumber : string;
  raw_partName : string;
  raw_specification : string;
  raw_supplier : string;
  raw_shortageQty : Z;
  raw_requiredDate : string;
  raw_uploadBatch : string
}.

(** An incoming shortage record, [Omit<ERPRawRow, 'id'>]. The upload view
    builds these records without [model], [requiredDate] and
    [uploadBatch], hence the options. *)
Record ShortageRecord : Type := {
  erp_model : option string;
  erp_workOrder : string;
  erp_partNumber : string;
  erp_partName : string;
  erp_specification : string;
  erp_supplier : string;
  erp_shortageQty : Z;
  erp_requiredDate : option string;
  erp_uploadBatch : option string
}.

(** An incoming work-order detail record. *)
Record WODetail : Type := {
  wo_workOrder : string;
  wo_model : string;
  wo_vendor : string;
  wo_stage : option string;
  wo_productPartNumber : option string;
  wo_productionDate : option string
}.

Inductive Status : Type :=
  | Pending
  | Confirmed
  | Late
  | Ready.

(** [stage] is declared ['SMT' | 'Assembly' | 'Packing'] but every writer
    casts to [any], so a row can carry any string. *)
Record TrackingRow : Type := {
  id : string;
  model : string;
  workOrder : string;
  productPartNumber : option string;
  partNumber : string;
  partName : string;
  specification : string;
  stage : string;
  vendor : string;
  supplier : string;
  shortageQty : Z;
  productionDate : option string;
  oqcDate : string;
  isMaterialReady : bool;
  purchaserReplyDate : string;
  purchaserRemark : string;
  status : Status;
  purchaserUsername : string;
  isArchived : bool
}.

Record ReferenceRow : Type := {
  ref_type : string;
  ref_value : string
}.

Record SheetDatabase : Type := {
  usersRoles : list UserRoleRow;
  erpRawData : list ERPRawRow;
  trackingSchedule : list TrackingRow;
  referenceData : list ReferenceRow
}.

#[global] Instance UserRole_eq_dec : EqDecision UserRole.
Proof. solve_decision. Defined.
#[global] Instance UserRoleRow_eq_dec : EqDecision UserRoleRow.
Proof. solve_decision. Defined.
#[global] Instance Status_eq_dec : EqDecision Status.
Proof. solve_decision. Defined.
#[global] Instance TrackingRow_eq_dec : EqDecision TrackingRow.
Proof. solve_decision. Defined.

(** *** Field assignments on a row ([row.f = v]) *)

Definition set_model (v : string) (r : TrackingRow) : TrackingRow :=
  {| id := id r; model := v; workOrder := workOrder r;
     productPartNumber := productPartNumber r; partNumber := partNumber r;
     partName := partName r; specification := specification r;
     stage := stage r; vendor := vendor r; supplier := supplier r;
     shortageQty := shortageQty r; productionDate := productionDate r;
     oqcDate := oqcDate r; isMaterialReady := isMaterialReady r;
     purchaserReplyDate := purchaserReplyDate r;
     purchaserRemark := purchaserRemark r; status := status r;
     purchaserUsername := purchaserUsername r; isArchived := isArchived r |}.

Definition set_vendor (v : string) (r : TrackingRow) : TrackingRow :=
  {| id := id r; model := model r; workOrder := workOrder r;
     productPartNumber := productPartNumber r; partNumber := partNumber r;
     partName := partName r; specification := specification r;
     stage := stage r; vendor := v; supplier := supplier r;
     shortageQty := shortageQty r; productionDate := productionDate r;
     oqcDate := oqcDate r; isMaterialReady := isMaterialReady r;
     purchaserReplyDate := purchaserReplyDate r;
     purchaserRemark := purchaserRemark r; status := status r;
     purchaserUsername := purchaserUsername r; isArchived := isArchived r |}.

Definition set_productPartNumber (v : option string) (r : TrackingRow) : TrackingRow :=
  {| id := id r; model := model r; workOrder := workOrder r;
     productPartNumber := v; partNumber := partNumber r;
     partName := partName r; specification := specification r;
     stage := stage r; vendor := vendor r; supplier := supplier r;
     shortageQty := shortageQty r; productionDate := productionDate r;
     oqcDate := oqcDate r; isMaterialReady := isMaterialReady r;
     purchaserReplyDate := purchaserReplyDate r;
     purchaserRemark := purchaserRemark r; status := status r;
     purchaserUsername := purchaserUsername r; isArchived := isArchived r |}.

Definition set_productionDate (v : option string) (r : TrackingRow) : TrackingRow :=
  {| id := id r; model := model r; workOrder := workOrder r;
     productPartNumber := productPartNumber r; partNumber := partNumber r;
     partName := partName r; specification := specification r;
     stage := stage r; vendor := vendor r; supplier := supplier r;
     shortageQty := shortageQty r; productionDate := v;
     oqcDate := oqcDate r; isMaterialReady := isMaterialReady r;
     purchaserReplyDate := purchaserReplyDate r;
     purchaserRemark := purchaserRemark r; status := status r;
     purchaserUsername := purchaserUsername r; isArchived := isArchived r |}.

Definition set_stage (v : string) (r : TrackingRow) : TrackingRow :=
  {| id := id r; model := model r; workOrder := workOrder r;
     productPartNumber := productPartNumber r; partNumber := partNumber r;
     partName := partName r; specification := specification r;
     stage := v; vendor := vendor r; supplier := supplier r;
     shortageQty := shortageQty r; productionDate := productionDate r;
     oqcDate := oqcDate r; isMaterialReady := isMaterialReady r;
     purchaserReplyDate := purchaserReplyDate r;
     purchaserRemark := purchaserRemark r; status := status r;
     purchaserUsername := purchaserUsername r; isArchived := isArchived r |}.

Definition set_shortageQty (v : Z) (r : TrackingRow) : TrackingRow :=
  {| id := id r; model := model r; workOrder := workOrder r;
     productPartNumber := productPartNumber r; partNumber := partNumber r;
     partName := partName r; specification := specification r;
     stage := stage r; vendor := vendor r; supplier := supplier r;
     shortageQty := v; productionDate := productionDate r;
     oqcDate := oqcDate r; isMaterialReady := isMaterialReady r;
     purchaserReplyDate := purchaserReplyDate r;
     purchaserRemark := purchaserRemark r; status := status r;
     purchaserUsername := purchaserUsername r; isArchived := isArchived r |}.

Definition set_oqcDate (v : string) (r : TrackingRow) : TrackingRow :=
  {| id := id r; model := model r; workOrder := workOrder r;
     productPartNumber := productPartNumber r; partNumber := partNumber r;
     partName := partName r; specification := specification r;
     stage := stage r; vendor := vendor r; supplier := supplier r;
     shortageQty := shortageQty r; productionDate := productionDate r;
     oqcDate := v; isMaterialReady := isMaterialReady r;
     purchaserReplyDate := purchaserReplyDate r;
     purchaserRemark := purchaserRemark r; status := status r;
     purchaserUsername := purchaserUsername r; isArchived := isArchived r |}.

Definition set_isMaterialReady (v : bool) (r : TrackingRow) : TrackingRow :=
  {| id := id r; model := model r; workOrder := workOrder r;
     productPartNumber := productPartNumber r; partNumber := partNumber r;
     partName := partName r; specification := specification r;
     stage := stage r; vendor := vendor r; supplier := supplier r;
     shortageQty := shortageQty r; productionDate := productionDate r;
     oqcDate := oqcDate r; isMaterialReady := v;
     purchaserReplyDate := purchaserReplyDate r;
     purchaserRemark := purchaserRemark r; status := status r;
     purchaserUsername := purchaserUsername r; isArchived := isArchived r |}.

Definition set_purchaserReplyDate (v : string) (r : TrackingRow) : TrackingRow :=
  {| id := id r; model := model r; workOrder := workOrder r;
     productPartNumber := productPartNumber r; partNumber := partNumber r;
     partName := partName r; specification := specification r;
     stage := stage r; vendor := vendor r; supplier := supplier r;
     shortageQty := shortageQty r; productionDate := productionDate r;
     oqcDate := oqcDate r; isMaterialReady := isMaterialReady r;
     purchaserReplyDate := v;
     purchaserRemark := purchaserRemark r; status := status r;
     purchaserUsername := purchaserUsername r; isArchived := isArchived r |}.

Definition set_purchaserRemark (v : string) (r : TrackingRow) : TrackingRow :=
  {| id := id r; model := model r; workOrder := workOrder r;
     productPartNumber := productPartNumber r; partNumber := partNumber r;
     partName := partName r; specification := specification r;
     stage := stage r; vendor := vendor r; supplier := supplier r;
     shortageQty := shortageQty r; productionDate := productionDate r;
     oqcDate := oqcDate r; isMaterialReady := isMaterialReady r;
     purchaserReplyDate := purchaserReplyDate r;
     purchaserRemark := v; status := status r;
     purchaserUsername := purchaserUsername r; isArchived := isArchived r |}.

Definition set_status (v : Status) (r : TrackingRow) : TrackingRow :=
  {| id := id r; model := model r; workOrder := workOrder r;
     productPartNumber := productPartNumber r; partNumber := partNumber r;
     partName := partName r; specification := specification r;
     stage := stage r; vendor := vendor r; supplier := supplier r;
     shortageQty := shortageQty r; productionDate := productionDate r;
     oqcDate := oqcDate r; isMaterialReady := isMaterialReady r;
     purchaserReplyDate := purchaserReplyDate r;
     purchaserRemark := purchaserRemark r; status := v;
     purchaserUsername := purchaserUsername r; isArchived := isArchived r |}.

Definition set_isArchived (v : bool) (r : TrackingRow) : TrackingRow :=
  {| id := id r; model := model r; workOrder := workOrder r;
     productPartNumber := productPartNumber r; partNumber := partNumber r;
     partName := partName r; specification := specification r;
     stage := stage r; vendor := vendor r; supplier := supplier r;
     shortageQty := shortageQty r; productionDate := productionDate r;
     oqcDate := oqcDate r; isMaterialReady := isMaterialReady r;
     purchaserReplyDate := purchaserReplyDate r;
     purchaserRemark := purchaserRemark r; status := status r;
     purchaserUsername := purchaserUsername r; isArchived := v |}.

(** [db.trackingSchedule = rows], the other collections kept. *)
Definition set_trackingSchedule (rows : list TrackingRow) (d : SheetDatabase)
  : SheetDatabase :=
  {| usersRoles := usersRoles d; erpRawData := erpRawData d;
     trackingSchedule := rows; referenceData := referenceData d |}.

Definition set_usersRoles (us : list UserRoleRow) (d : SheetDatabase)
  : SheetDatabase :=
  {| usersRoles := us; erpRawData := erpRawData d;
     trackingSchedule := trackingSchedule d; referenceData := referenceData d |}.

(* ===================================================================== *)
(** ** Host environment and service state *)
(* ===================================================================== *)

(** What the host supplies to one call of the service:
    - [Date_now i] : the value of [Date.now()] read while the [i]-th
      record of the batch is processed;
    - [Math_random i] : the decimal rendering of the [Math.random()] draw
      made for that record;
    - [toLowerCase] : [String.prototype.toLowerCase]. *)
Record Runtime : Type := {
  Date_now : nat → N;
  Math_random : nat → string;
  toLowerCase : string → string
}.

(** The service object: the in-memory database [this.db] and the
    ['mock_sheet_db'] entry of [localStorage]. *)
Record Service : Type := {
  db : SheetDatabase;
  localStorage : option SheetDatabase
}.

(** [new MockSheetService()] over a store holding [saved]; [initial] is the
    seed [INITIAL_DB]. *)
Definition constructor (initial : SheetDatabase) (saved : option SheetDatabase)
  : Service :=
  {| db := match saved with Some d => d | None => initial end;
     localStorage := saved |}.

Definition save (s : Service) : Service :=
  {| db := db s; localStorage := Some (db s) |}.

Definition set_db (d : SheetDatabase) (s : Service) : Service :=
  {| db := d; localStorage := localStorage s |}.

Definition rows (s : Service) : list TrackingRow := trackingSchedule (db s).

Definition set_rows (rs : list TrackingRow) (s : Service) : Service :=
  set_db (set_trackingSchedule rs (db s)) s.

(** [forEach ((x, i) => ...)] threading a state, [i] counting from [start]. *)
Fixpoint forEach_i {A S : Type} (f : S → nat → A → S) (start : nat)
  (l : list A) (s : S) : S :=
  match l with
  | [] => s
  | x :: l' => forEach_i f (Datatypes.S start) l' (f s start x)
  end.

(* ===================================================================== *)
(** ** Status calculator and row mutators *)
(* ===================================================================== *)

Definition calculateStatus (row : TrackingRow) : Status :=
  if isMaterialReady row then Ready
  else if negb (truthy (purchaserReplyDate row)) then Pending
  else Confirmed.

Definition login (rt : Runtime) (name : string) (s : Service)
  : option (UserRoleRow * UserRole) :=
  match list_find (λ u, toLowerCase rt (username u) = toLowerCase rt name)
          (usersRoles (db s)) with
  | Some (_, userMap) => Some (userMap, role userMap)
  | None => None
  end.

Definition searchTracking (wo : string) (s : Service)
  : list TrackingRow * Service :=
  let s' := match localStorage s with
            | Some saved => set_db saved s
            | None => s
            end in
  (rows s', s').

Definition updateDeliveryDate (rowId newDate : string) (s : Service)
  : bool * Service :=
  match list_find (λ r, id r = rowId) (rows s) with
  | Some (i, _) =>
      let assign row :=
        let row1 := set_purchaserReplyDate newDate row in
        set_status (calculateStatus row1) row1 in
      (true, save (set_rows (alter assign i (rows s)) s))
  | None => (false, s)
  end.

Definition updatePurchaserRemark (rowId remark : string) (s : Service)
  : bool * Service :=
  match list_find (λ r, id r = rowId) (rows s) with
  | Some (i, _) =>
      (true, save (set_rows (alter (set_purchaserRemark remark) i (rows s)) s))
  | None => (false, s)
  end.

Definition in_stage (wo stg : string) (row : TrackingRow) : Prop :=
  workOrder row = wo ∧ stage row = stg.

#[global] Instance in_stage_dec wo stg row : Decision (in_stage wo stg row).
Proof. unfold in_stage. apply _. Defined.

(** [field] is always ['oqcDate']. *)
Definition updateStageDate (wo stg newDate : string) (s : Service)
  : bool * Service :=
  let touch row :=
    if decide (in_stage wo stg row) then
      let row1 := set_oqcDate newDate row in
      set_status (calculateStatus row1) row1
    else row in
  let updated := bool_decide (Exists (in_stage wo stg) (rows s)) in
  let s' := set_rows (touch <$> rows s) s in
  if updated then (true, save s') else (false, s').

Definition updateStageReady (wo stg : string) (isReady : bool) (s : Service)
  : bool * Service :=
  let touch row :=
    if decide (in_stage wo stg row) then
      let row1 := set_isMaterialReady isReady row in
      set_status (calculateStatus row1) row1
    else row in
  let updated := bool_decide (Exists (in_stage wo stg) (rows s)) in
  let s' := set_rows (touch <$> rows s) s in
  if updated then (true, save s') else (false, s').

Definition archiveModel (rt : Runtime) (modelName : string) (archived : bool)
  (s : Service) : bool * Service :=
  let targetModel := toLowerCase rt (trim modelName) in
  let touch row :=
    if decide (toLowerCase rt (trim (model row)) = targetModel)
    then set_isArchived archived row else row in
  (true, save (set_rows (touch <$> rows s) s)).

(* ===================================================================== *)
(** ** User management *)
(* ===================================================================== *)

Definition getAllERP (s : Service) : list ERPRawRow := erpRawData (db s).

Definition getUsers (s : Service) : list UserRoleRow := usersRoles (db s).

Definition addUser (rt : Runtime) (user : UserRoleRow) (s : Service)
  : bool * Service :=
  if bool_decide (Exists (λ u, toLowerCase rt (username u)
                               = toLowerCase rt (username user))
                    (usersRoles (db s)))
  then (false, s)
  else (true, save (set_db (set_usersRoles (usersRoles (db s) ++ [user]) (db s)) s)).

Definition deleteUser (name : string) (s : Service) : bool * Service :=
  let initialLen := length (usersRoles (db s)) in
  let s1 := set_db (set_usersRoles
                      (filter (λ u, username u ≠ name) (usersRoles (db s)))
                      (db s)) s in
  let success := bool_decide (length (usersRoles (db s1)) < initialLen) in
  if success then (true, save s1) else (false, s1).

(** The guard of the [UserManagement] view: the delete control of a user
    row is rendered only when [u.username !== 'admin']. *)
Definition deleteOffered (u : UserRoleRow) : bool :=
  bool_decide (username u ≠ "admin").

(* ===================================================================== *)
(** ** Shortage import *)
(* ===================================================================== *)

Inductive ImportMode : Type :=
  | replace
  | merge.

(** The part number marking a metadata-only skeleton row. *)
Definition WO_INFO_ONLY : string := "WO_INFO_ONLY".

(** The composite key [`${workOrder}-${partNumber}`]. *)
Definition compositeKey (wo pn : string) : string := wo +:+ "-" +:+ pn.

Definition rowKey (row : TrackingRow) : string :=
  compositeKey (workOrder row) (partNumber row).

Definition recKey (d : ShortageRecord) : string :=
  compositeKey (erp_workOrder d) (erp_partNumber d).

(** [incomingByWO]: the batch grouped by work order. *)
Definition incomingByWO (data : list ShortageRecord)
  : gmap string (list ShortageRecord) :=
  foldl (λ m d, <[erp_workOrder d := default [] (m !! erp_workOrder d) ++ [d]]> m)
        ∅ data.

(** [Object.keys(incomingByWO)]; the code only tests membership in it. *)
Definition targetWOs (data : list ShortageRecord) : gset string :=
  dom (incomingByWO data).

(** The metadata snapshot kept per work order by the replace policy. *)
Record Meta : Type := {
  meta_model : string;
  meta_vendor : string;
  meta_stage : string;
  meta_prodDate : string;
  meta_productPN : string
}.

Definition defaultMeta : Meta :=
  {| meta_model := "Unknown"; meta_vendor := ""; meta_stage := "SMT";
     meta_prodDate := ""; meta_productPN := "" |}.

Definition metaOfRow (r : TrackingRow) : Meta :=
  {| meta_model := model r; meta_vendor := vendor r; meta_stage := stage r;
     meta_prodDate := or_else (productionDate r) "";
     meta_productPN := or_else (productPartNumber r) "" |}.

(** [metadataMap], filled by a pass over the current schedule: the first
    row of each target work order wins. *)
Definition metadataMap (targets : gset string) (sched : list TrackingRow)
  : gmap string Meta :=
  foldl (λ m r,
           if decide (workOrder r ∈ targets) then
             match m !! workOrder r with
             | None => <[workOrder r := metaOfRow r]> m
             | Some _ => m
             end
           else m)
        ∅ sched.

(** The row pushed by the replace policy for the [i]-th record. *)
Definition replaceRow (rt : Runtime) (metas : gmap string Meta) (i : nat)
  (d : ShortageRecord) : TrackingRow :=
  let meta := default defaultMeta (metas !! erp_workOrder d) in
  {| id := "track-" +:+ pretty (Date_now rt i) +:+ "-" +:+ pretty i;
     model := or_else (erp_model d) (meta_model meta);
     workOrder := erp_workOrder d;
     partNumber := erp_partNumber d;
     partName := erp_partName d;
     specification := erp_specification d;
     supplier := erp_supplier d;
     shortageQty := erp_shortageQty d;
     stage := meta_stage meta;
     vendor := meta_vendor meta;
     productPartNumber := Some (meta_productPN meta);
     productionDate := Some (meta_prodDate meta);
     oqcDate := "";
     isMaterialReady := false;
     purchaserReplyDate := "";
     purchaserRemark := "";
     status := Pending;
     purchaserUsername := "";
     isArchived := false |}.

(** The replace branch, statement by statement: the schedule is filtered
    once (source line 137), a first loop over the batch does nothing, the
    metadata map is built from the schedule as it then stands, the
    schedule is filtered again and the new rows are appended. *)
Definition importShortages_replace (rt : Runtime) (data : list ShortageRecord)
  (sched : list TrackingRow) : list TrackingRow :=
  let targets := targetWOs data in
  let sched1 := filter (λ row, workOrder row ∉ targets) sched in
  let metas := metadataMap targets sched1 in
  let sched2 := filter (λ row, workOrder row ∉ targets) sched1 in
  let newRows := imap (replaceRow rt metas) data in
  sched2 ++ newRows.

(** [existingMap]: composite key to row reference; a later row with the
    same key overwrites an earlier one. *)
Definition existingMap (sched : list TrackingRow) : gmap string nat :=
  foldl (λ m ir, <[rowKey ir.2 := ir.1]> m) ∅ (imap pair sched).

(** [existing.shortageQty = d.shortageQty; existing.status = ...]. *)
Definition mergeUpdate (d : ShortageRecord) (existing : TrackingRow)
  : TrackingRow :=
  let row1 := set_shortageQty (erp_shortageQty d) existing in
  set_status (if decide (shortageQty row1 = 0%Z) then Ready else status row1) row1.

(** The row pushed by the merge policy for a record with no existing key;
    [sibling] is the first row of the same work order, if any. *)
Definition mergeRow (rt : Runtime) (i : nat) (d : ShortageRecord)
  (sibling : option TrackingRow) : TrackingRow :=
  {| id := "track-merge-" +:+ pretty (Date_now rt i) +:+ "-" +:+ Math_random rt i;
     model := match sibling with Some r => model r | None => "Unknown" end;
     workOrder := erp_workOrder d;
     partNumber := erp_partNumber d;
     partName := erp_partName d;
     specification := erp_specification d;
     supplier := erp_supplier d;
     shortageQty := erp_shortageQty d;
     stage := match sibling with Some r => stage r | None => "SMT" end;
     vendor := match sibling with Some r => vendor r | None => "" end;
     productPartNumber :=
       match sibling with Some r => productPartNumber r | None => Some "" end;
     productionDate :=
       match sibling with Some r => productionDate r | None => Some "" end;
     oqcDate := "";
     isMaterialReady := false;
     purchaserReplyDate := "";
     purchaserRemark := "";
     status := Pending;
     purchaserUsername := "";
     isArchived := false |}.

(** Body of the "update or add" loop for the [i]-th record. *)
Definition mergeStep (rt : Runtime) (existing : gmap string nat)
  (sched : list TrackingRow) (i : nat) (d : ShortageRecord)
  : list TrackingRow :=
  match existing !! recKey d with
  | Some j => alter (mergeUpdate d) j sched
  | None =>
      let sibling :=
        snd <$> list_find (λ r, workOrder r = erp_workOrder d) sched in
      sched ++ [mergeRow rt i d sibling]
  end.

(** [incomingKeys]. *)
Definition incomingKeys (data : list ShortageRecord) : gset string :=
  list_to_set (recKey <$> data).

Definition resolve (row : TrackingRow) : TrackingRow :=
  set_status Ready (set_shortageQty 0%Z row).

(** Body of the "resolved items" loop. *)
Definition sweepRow (targets keys : gset string) (row : TrackingRow)
  : TrackingRow :=
  if decide (workOrder row ∈ targets) then
    if decide ((rowKey row ∉ keys) ∧ (partNumber row ≠ WO_INFO_ONLY))
    then resolve row else row
  else row.

Definition importShortages_merge (rt : Runtime) (data : list ShortageRecord)
  (sched : list TrackingRow) : list TrackingRow :=
  let existing := existingMap sched in
  let sched1 := forEach_i (mergeStep rt existing) 0 data sched in
  sweepRow (targetWOs data) (incomingKeys data) <$> sched1.

(** [mode] defaults to ['replace']. *)
Definition importShortages (rt : Runtime) (data : list ShortageRecord)
  (mode : option ImportMode) (s : Service) : bool * Service :=
  let sched :=
    match default replace mode with
    | replace => importShortages_replace rt data (rows s)
    | merge => importShortages_merge rt data (rows s)
    end in
  (true, save (set_rows sched s)).

(* ===================================================================== *)
(** ** Work-order detail import *)
(* ===================================================================== *)

(** [info.stage?.trim() || 'SMT'] followed by the three label mappings. *)
Definition normalizeStage (stg : option string) : string :=
  let s0 := or_else (trim <$> stg) "SMT" in
  let s1 := if decide (s0 = "打件") then "SMT" else s0 in
  let s2 := if decide (s1 = "組裝") then "Assembly" else s1 in
  if decide (s2 = "包裝") then "Packing" else s2.

Definition skeleton (rt : Runtime) (i : nat) (info : WODetail) (s : string)
  : TrackingRow :=
  {| id := "skel-" +:+ pretty (Date_now rt i) +:+ "-" +:+ Math_random rt i;
     model := wo_model info;
     workOrder := wo_workOrder info;
     vendor := wo_vendor info;
     stage := s;
     productPartNumber := wo_productPartNumber info;
     productionDate := wo_productionDate info;
     partNumber := WO_INFO_ONLY;
     partName := ""; specification := ""; supplier := "";
     shortageQty := 0%Z; oqcDate := ""; isMaterialReady := false;
     purchaserReplyDate := ""; purchaserRemark := ""; status := Ready;
     purchaserUsername := ""; isArchived := false |}.

(** The five guarded assignments made on a row of the record's work order. *)
Definition mergeMetadata (info : WODetail) (s : string) (row : TrackingRow)
  : TrackingRow :=
  let r1 := if truthy (wo_model info) then set_model (wo_model info) row else row in
  let r2 := if truthy (wo_vendor info) then set_vendor (wo_vendor info) r1 else r1 in
  let r3 := if truthy_opt (wo_productPartNumber info)
            then set_productPartNumber (wo_productPartNumber info) r2 else r2 in
  let r4 := if truthy_opt (wo_productionDate info)
            then set_productionDate (wo_productionDate info) r3 else r3 in
  if truthy_opt (wo_stage info) then set_stage s r4 else r4.

Definition ofWorkOrder (wo : string) (row : TrackingRow) : Prop :=
  workOrder row = wo.

#[global] Instance ofWorkOrder_dec wo row : Decision (ofWorkOrder wo row).
Proof. unfold ofWorkOrder. apply _. Defined.

(** Body of the inner loop over the schedule, for one record. *)
Definition woTouch (info : WODetail) (s : string) (row : TrackingRow)
  : TrackingRow :=
  if decide (ofWorkOrder (wo_workOrder info) row)
  then mergeMetadata info s row else row.

(** Body of the loop over the batch; the state is the schedule and
    [updatedCount]. *)
Definition woStep (rt : Runtime) (acc : list TrackingRow * nat) (i : nat)
  (info : WODetail) : list TrackingRow * nat :=
  let '(sched, updatedCount) := acc in
  let exists_ := bool_decide (Exists (ofWorkOrder (wo_workOrder info)) sched) in
  let s := normalizeStage (wo_stage info) in
  if negb exists_ then
    (sched ++ [skeleton rt i info s], Datatypes.S updatedCount)
  else
    (woTouch info s <$> sched,
     updatedCount + length (filter (ofWorkOrder (wo_workOrder info)) sched)).

Definition importWODetails (rt : Runtime) (data : list WODetail) (s : Service)
  : bool * Service :=
  let '(sched, updatedCount) := forEach_i (woStep rt) 0 data (rows s, 0) in
  let s' := set_rows sched s in
  if bool_decide (0 < updatedCount) then (true, save s') else (false, s').

(* ===================================================================== *)
(** ** The service as a whole *)
(* ===================================================================== *)

(** One call of a method of the service. *)
Inductive Op : Type :=
  | OpLogin (name : string)
  | OpSearchTracking (wo : string)
  | OpUpdateDeliveryDate (rowId newDate : string)
  | OpUpdatePurchaserRemark (rowId remark : string)
  | OpUpdateStageDate (wo stg newDate : string)
  | OpUpdateStageReady (wo stg : string) (isReady : bool)
  | OpArchiveModel (modelName : string) (archived : bool)
  | OpImportWODetails (data : list WODetail)
  | OpImportShortages (data : list ShortageRecord) (mode : option ImportMode)
  | OpGetAllERP
  | OpGetUsers
  | OpAddUser (user : UserRoleRow)
  | OpDeleteUser (name : string).

(** The state of the service after a call. *)
Definition run (rt : Runtime) (op : Op) (s : Service) : Service :=
  match op with
  | OpLogin _ => s
  | OpSearchTracking wo => (searchTracking wo s).2
  | OpUpdateDeliveryDate rowId newDate => (updateDeliveryDate rowId newDate s).2
  | OpUpdatePurchaserRemark rowId remark => (updatePurchaserRemark rowId remark s).2
  | OpUpdateStageDate wo stg newDate => (updateStageDate wo stg newDate s).2
  | OpUpdateStageReady wo stg isReady => (updateStageReady wo stg isReady s).2
  | OpArchiveModel modelName archived => (archiveModel rt modelName archived s).2
  | OpImportWODetails data => (importWODetails rt data s).2
  | OpImportShortages data mode => (importShortages rt data mode s).2
  | OpGetAllERP => s
  | OpGetUsers => s
  | OpAddUser user => (addUser rt user s).2
  | OpDeleteUser name => (deleteUser name s).2
  end.

(* ===================================================================== *)
(** ** Vocabulary of the properties *)
(* ===================================================================== *)

Definition rowPair (row : TrackingRow) : string * string :=
  (workOrder row, partNumber row).


(** No two rows of a schedule share [(workOrder, partNumber)]. *)
Definition uniquePairs (sched : list TrackingRow) : Prop :=
  NoDup (rowPair <$> sched).

#[global] Instance uniquePairs_dec sched : Decision (uniquePairs sched).
Proof. unfold uniquePairs. apply _. Defined.




(** Row [i] of [sched] is the one [existingMap] refers to for its key: no
    later row carries the same composite key. *)
Definition lastWithKey (sched : list TrackingRow) (i : nat) (r : TrackingRow)
  : Prop :=
  ∀ j r', i < j → sched !! j = Some r' → rowKey r' ≠ rowKey r.

(** The updates the merge loop makes through reference [i] of the
    lookup [existing], in batch order. *)
Definition updatesAt (existing : gmap string nat) (i : nat)
  (data : list ShortageRecord) (r : TrackingRow) : TrackingRow :=
  foldl (λ acc d,
           if decide (existing !! recKey d = Some i)
           then mergeUpdate d acc else acc) r data.


(** The records of a work-order batch applied to a row in batch order;
    a record touches the row when it names the row's work order. *)
Definition applyDetails (data : list WODetail) (r : TrackingRow) : TrackingRow :=
  foldl (λ acc info, woTouch info (normalizeStage (wo_stage info)) acc) r data.

(** [r'] differs from [r] at most in the five metadata fields written by
    the work-order import. *)
Definition sameButMetadata (r r' : TrackingRow) : Prop :=
  r' = set_stage (stage r')
         (set_productionDate (productionDate r')
            (set_productPartNumber (productPartNumber r')
               (set_vendor (vendor r') (set_model (model r') r)))).

(** The rows of a schedule that belong to work order [wo]. *)
Definition rowsOf (wo : string) (sched : list TrackingRow) : list TrackingRow :=
  filter (ofWorkOrder wo) sched.

(* ===================================================================== *)
(** ** Answers, statuses and inherited metadata *)
(* ===================================================================== *)

(** The boolean a call answers, for the methods that answer one. *)
Definition answer (rt : Runtime) (op : Op) (s : Service) : option bool :=
  match op with
  | OpUpdateDeliveryDate rowId newDate => Some (updateDeliveryDate rowId newDate s).1
  | OpUpdatePurchaserRemark rowId remark => Some (updatePurchaserRemark rowId remark s).1
  | OpUpdateStageDate wo stg newDate => Some (updateStageDate wo stg newDate s).1
  | OpUpdateStageReady wo stg isReady => Some (updateStageReady wo stg isReady s).1
  | OpArchiveModel modelName archived => Some (archiveModel rt modelName archived s).1
  | OpImportWODetails data => Some (importWODetails rt data s).1
  | OpImportShortages data mode => Some (importShortages rt data mode s).1
  | OpAddUser user => Some (addUser rt user s).1
  | OpDeleteUser name => Some (deleteUser name s).1
  | OpLogin _ | OpSearchTracking _ | OpGetAllERP | OpGetUsers => None
  end.

(** No row of a schedule has status ['Late']. *)
Definition noLate (sched : list TrackingRow) : Prop :=
  Forall (λ r, status r ≠ Late) sched.

(** No row is ['Late'], in memory or in the saved copy. *)
Definition NoLate (s : Service) : Prop :=
  noLate (rows s) ∧
  ∀ saved, localStorage s = Some saved → noLate (trackingSchedule saved).

(** The five metadata fields of a row. *)
Definition metadata (r : TrackingRow)
  : string * string * string * option string * option string :=
  (model r, stage r, vendor r, productPartNumber r, productionDate r).

(** The metadata the merge policy gives a new row: that of the sibling
    it found, or the defaults. *)
Definition inherited (sibling : option TrackingRow)
  : string * string * string * option string * option string :=
  match sibling with
  | Some r => metadata r
  | None => ("Unknown", "SMT", "", Some "", Some "")
  end.

(** [sched.find(r => r.workOrder === wo)]. *)
Definition firstOfWorkOrder (wo : string) (sched : list TrackingRow)
  : option TrackingRow :=
  snd <$> list_find (λ r, workOrder r = wo) sched.


(* ===================================================================== *)
(** ** Tracking view ([App.tsx]) *)
(* ===================================================================== *)

Module View.

Inductive StageStatus : Type :=
  | ok
  | late
  | pending.

(** A row counts as a real shortage when [shortageQty > 0]. *)
Definition realShortage (r : TrackingRow) : Prop := (0 < shortageQty r)%Z.

#[global] Instance realShortage_dec r : Decision (realShortage r).
Proof. unfold realShortage. apply _. Defined.

Definition resolved (r : TrackingRow) : Prop :=
  status r = Ready ∨ isMaterialReady r = true.

#[global] Instance resolved_dec r : Decision (resolved r).
Proof. unfold resolved. apply _. Defined.

Definition getStageStatus (stageRows : list TrackingRow) : StageStatus :=
  if bool_decide (length stageRows = 0) then ok
  else
    let realShortages := filter realShortage stageRows in
    if bool_decide (length realShortages = 0) then ok
    else if bool_decide (Forall resolved realShortages) then ok
    else if bool_decide (Exists (λ r, status r = Late) realShortages) then late
    else pending.


End View.

(* ===================================================================== *)
(** ** Concrete data used by the examples *)
(* ===================================================================== *)

Module Sample.

(** ASCII lower-casing, enough for the sample user names. *)
Definition lowerAscii (a : Ascii.ascii) : Ascii.ascii :=
  let n := byte_of a in
  if ((65 <=? n) && (n <=? 90))%N then Ascii.ascii_of_N (n + 32) else a.

Fixpoint lower (s : string) : string :=
  match s with
  | EmptyString => EmptyString
  | String a r => String (lowerAscii a) (lower r)
  end.

Definition rt : Runtime :=
  {| Date_now := λ _, 1700000000000%N;
     Math_random := λ i, "0." +:+ pretty i;
     toLowerCase := lower |}.

Definition user (name : string) (r : UserRole) : UserRoleRow :=
  {| username := name; role := r |}.

Definition shortage (wo pn : string) (qty : Z) : ShortageRecord :=
  {| erp_model := None; erp_workOrder := wo; erp_partNumber := pn;
     erp_partName := ""; erp_specification := ""; erp_supplier := "";
     erp_shortageQty := qty; erp_requiredDate := None;
     erp_uploadBatch := None |}.

Definition detail (wo mdl vend : string) (stg : option string) : WODetail :=
  {| wo_workOrder := wo; wo_model := mdl; wo_vendor := vend;
     wo_stage := stg; wo_productPartNumber := None;
     wo_productionDate := None |}.

(** A tracked shortage with purchaser state on it. *)
Definition tracked (wo pn : string) (qty : Z) : TrackingRow :=
  {| id := "row-" +:+ wo +:+ "/" +:+ pn; model := "ModelA"; workOrder := wo;
     productPartNumber := Some "HALF-1"; partNumber := pn;
     partName := "RES 10K"; specification := "0402"; stage := "Assembly";
     vendor := "VendorX"; supplier := "Yageo"; shortageQty := qty;
     productionDate := Some "2024-12-01"; oqcDate := "2024-12-20";
     isMaterialReady := false; purchaserReplyDate := "2024-12-05";
     purchaserRemark := "partial"; status := Confirmed;
     purchaserUsername := ""; isArchived := false |}.

Definition withUsers (us : list UserRoleRow) : Service :=
  let d := {| usersRoles := us; erpRawData := []; trackingSchedule := [];
              referenceData := [] |} in
  {| db := d; localStorage := Some d |}.

Definition withRows (rs : list TrackingRow) : Service :=
  let d := {| usersRoles := []; erpRawData := []; trackingSchedule := rs;
              referenceData := [] |} in
  {| db := d; localStorage := Some d |}.

End Sample.

(* ===================================================================== *)
(** ** Status calculator *)
(* ===================================================================== *)

Lemma truthy_spec (s : string) : truthy s = true ↔ s ≠ "".
Proof.
  unfold truthy. rewrite negb_true_iff, bool_decide_eq_false. done.
Qed.

Lemma truthy_false (s : string) : truthy s = false ↔ s = "".
Proof.
  unfold truthy. rewrite negb_false_iff, bool_decide_eq_true. done.
Qed.

(** C8. The derived status of a row is ['Ready'] when [isMaterialReady]
    holds, otherwise ['Pending'] when [purchaserReplyDate] is empty,
    otherwise ['Confirmed']; it is ['Late'] for no row. *)
Theorem calculateStatus_spec (row : TrackingRow) :
  calculateStatus row
  = (if isMaterialReady row then Ready
     else if bool_decide (purchaserReplyDate row = "") then Pending
     else Confirmed)
  ∧ calculateStatus row ≠ Late.
Proof.
  unfold calculateStatus, truthy.
  destruct (isMaterialReady row); [done|].
  rewrite negb_involutive.
  by destruct (bool_decide (purchaserReplyDate row = "")).
Qed.

(* ===================================================================== *)
(** ** User management *)
(* ===================================================================== *)

Lemma filter_length_lt_iff {A} (P : A → Prop) `{!∀ x, Decision (P x)}
  (l : list A) :
  length (filter P l) < length l ↔ ∃ x, x ∈ l ∧ ¬ P x.
Proof.
  induction l as [|a l IH]; simpl.
  - split; [lia|]. intros (x & Hx & _). by apply elem_of_nil in Hx.
  - pose proof (length_filter P l) as Hle.
    rewrite filter_cons. destruct (decide (P a)) as [Ha|Ha]; simpl.
    + rewrite <- Nat.succ_lt_mono, IH. split.
      * intros (x & Hx & HP). exists x. split; [by right|done].
      * intros (x & Hx & HP). apply elem_of_cons in Hx as [->|Hx]; [done|].
        by exists x.
    + split; [|lia]. intros _. exists a. split; [by left|done].
Qed.

Lemma filter_all {A} (P : A → Prop) `{!∀ x, Decision (P x)} (l : list A) :
  (∀ x, x ∈ l → P x) → filter P l = l.
Proof.
  induction l as [|a l IH]; intros Hall; [done|].
  rewrite filter_cons_True by (apply Hall; by left).
  f_equal. apply IH. intros x Hx. apply Hall. by right.
Qed.

Lemma deleteUser_users (name : string) (s : Service) :
  usersRoles (db (deleteUser name s).2)
  = filter (λ u, username u ≠ name) (usersRoles (db s)).
Proof. unfold deleteUser. by case_bool_decide. Qed.

Lemma deleteUser_result (name : string) (s : Service) :
  (deleteUser name s).1 = true ↔ ∃ u, u ∈ usersRoles (db s) ∧ username u = name.
Proof.
  unfold deleteUser. simpl.
  case_bool_decide as Hlt; simpl.
  - split; [intros _|done].
    apply filter_length_lt_iff in Hlt as (u & Hu & Hne).
    exists u. split; [done|]. by destruct (decide (username u = name)).
  - split; [done|]. intros (u & Hu & Heq). exfalso. apply Hlt.
    apply filter_length_lt_iff. exists u. split; [done|]. by intros ?.
Qed.

Lemma deleteUser_absent (name : string) (s : Service) :
  (∀ u, u ∈ usersRoles (db s) → username u ≠ name) →
  deleteUser name s = (false, s).
Proof.
  intros Habs. unfold deleteUser. simpl.
  rewrite (filter_all _ _ Habs).
  case_bool_decide; [lia|].
  destruct s as [[] ?]; reflexivity.
Qed.

(** User names stay unique up to case under the two calls that change
    the user collection. *)
Lemma addUser_keeps_names_unique (rt : Runtime) (user : UserRoleRow)
  (s : Service) :
  NoDup (toLowerCase rt ∘ username <$> getUsers s) →
  NoDup (toLowerCase rt ∘ username <$> getUsers (addUser rt user s).2).
Proof.
  intros Hnd. unfold addUser, getUsers in *.
  case_bool_decide as Hex; [done|]. simpl.
  rewrite fmap_app. apply NoDup_app. split; [done|].
  split; [|apply NoDup_singleton].
  intros x (u & -> & Hu)%list_elem_of_fmap Hx.
  apply list_elem_of_singleton in Hx. apply Hex.
  apply Exists_exists. by exists u.
Qed.

Lemma deleteUser_keeps_names_unique (rt : Runtime) (name : string)
  (s : Service) :
  NoDup (toLowerCase rt ∘ username <$> getUsers s) →
  NoDup (toLowerCase rt ∘ username <$> getUsers (deleteUser name s).2).
Proof.
  intros Hnd. unfold getUsers in *. rewrite deleteUser_users.
  eapply sublist_NoDup; [exact Hnd|]. apply fmap_sublist, sublist_filter.
Qed.

(** The view offers the delete control on no row named ['admin']. *)
Lemma deleteOffered_spec (u : UserRoleRow) :
  deleteOffered u = true ↔ username u ≠ "admin".
Proof. unfold deleteOffered. apply bool_decide_eq_true. Qed.

(** C9 as stated fails: the service removes the ['admin'] record when it
    is asked to. *)
Lemma deleteUser_removes_admin :
  ¬ (∀ (name : string) (s : Service) (u : UserRoleRow),
       u ∈ getUsers s → username u = "admin" →
       u ∈ getUsers (deleteUser name s).2).
Proof.
  intros H.
  specialize (H "admin" (Sample.withUsers [Sample.user "admin" ADMIN])
                (Sample.user "admin" ADMIN)).
  vm_compute in H.
  specialize (H ltac:(by left) eq_refl).
  by apply elem_of_nil in H.
Qed.

(** C9, amended. For every user name other than ['admin'] -- the only
    names the view passes, since it renders no delete control on the admin
    row -- an ['admin'] record present before [deleteUser] is still present
    afterwards. *)
Theorem deleteUser_keeps_admin (name : string) (s : Service) (u : UserRoleRow) :
  name ≠ "admin" →
  u ∈ getUsers s → username u = "admin" →
  u ∈ getUsers (deleteUser name s).2.
Proof.
  intros Hname Hin Hadmin. unfold getUsers.
  rewrite deleteUser_users. apply list_elem_of_filter.
  split; [congruence|done].
Qed.

Lemma deleteUser_keeps_admin_witness :
  Sample.user "admin" ADMIN
  ∈ getUsers (deleteUser "bob"
                (Sample.withUsers [Sample.user "admin" ADMIN;
                                   Sample.user "bob" PURCHASER])).2.
Proof.
  apply deleteUser_keeps_admin; [done| |done].
  vm_compute. by left.
Defined.

(** C10. [deleteUser] compares user names exactly: it keeps the records
    whose name differs from the argument, answers [true] iff some record
    bore that very name, and saves only then. On a collection whose names
    are unique up to case, a spelling that differs from a stored name only
    by case is found by [login] and refused by [addUser], yet [deleteUser]
    answers [false] and leaves the service, saved copy included, as it
    was. *)
Theorem deleteUser_case_sensitive (rt : Runtime) (name : string) (s : Service) :
  getUsers (deleteUser name s).2 = filter (λ u, username u ≠ name) (getUsers s)
  ∧ ((deleteUser name s).1 = true ↔ ∃ u, u ∈ getUsers s ∧ username u = name)
  ∧ ((deleteUser name s).1 = true →
       localStorage (deleteUser name s).2 = Some (db (deleteUser name s).2))
  ∧ ((deleteUser name s).1 = false → (deleteUser name s).2 = s)
  ∧ (∀ u r,
       NoDup (toLowerCase rt ∘ username <$> getUsers s) →
       u ∈ getUsers s →
       toLowerCase rt name = toLowerCase rt (username u) →
       name ≠ username u →
       deleteUser name s = (false, s)
       ∧ is_Some (login rt name s)
       ∧ addUser rt {| username := name; role := r |} s = (false, s)).
Proof.
  split; [apply deleteUser_users|].
  split; [apply deleteUser_result|].
  split.
  { unfold deleteUser. simpl. by case_bool_decide. }
  split.
  { intros Hfalse. rewrite deleteUser_absent; [done|].
    intros u Hu Heq.
    assert ((deleteUser name s).1 = true) as Ht
      by (apply deleteUser_result; eauto).
    congruence. }
  intros u r Hnd Hu Hlow Hne. split; [|split].
  - apply deleteUser_absent. intros v Hv Heq. subst name.
    apply Hne. unfold getUsers in *.
    apply list_elem_of_lookup in Hu as [i Hi].
    apply list_elem_of_lookup in Hv as [j Hj].
    assert (i = j) as ->.
    { eapply NoDup_lookup; [exact Hnd| |].
      - rewrite list_lookup_fmap, Hi. reflexivity.
      - rewrite list_lookup_fmap, Hj. simpl. by rewrite Hlow. }
    congruence.
  - unfold login.
    destruct (list_find _ _) as [[k w]|] eqn:Hfind; [by eexists|].
    exfalso. rewrite list_find_None in Hfind.
    rewrite Forall_forall in Hfind. by apply (Hfind u Hu).
  - unfold addUser. rewrite bool_decide_eq_true_2; [done|].
    apply Exists_exists. exists u. split; [done|]. by simpl.
Qed.

Lemma deleteUser_case_sensitive_witness :
  deleteUser "Bob" (Sample.withUsers [Sample.user "admin" ADMIN;
                                      Sample.user "bob" PURCHASER])
  = (false, Sample.withUsers [Sample.user "admin" ADMIN;
                              Sample.user "bob" PURCHASER])
  ∧ is_Some (login Sample.rt "Bob"
               (Sample.withUsers [Sample.user "admin" ADMIN;
                                  Sample.user "bob" PURCHASER])).
Proof.
  pose proof (deleteUser_case_sensitive Sample.rt "Bob"
                (Sample.withUsers [Sample.user "admin" ADMIN;
                                   Sample.user "bob" PURCHASER]))
    as (_ & _ & _ & _ & H).
  destruct (H (Sample.user "bob" PURCHASER) PURCHASER) as (H1 & H2 & _).
  - by apply (bool_decide_unpack _).
  - right. by left.
  - reflexivity.
  - discriminate.
  - by split.
Defined.

(* ===================================================================== *)
(** ** Loops, keys and lookups *)
(* ===================================================================== *)


Lemma incomingByWO_dom (data : list ShortageRecord)
  (m : gmap string (list ShortageRecord)) :
  dom (foldl (λ m d, <[erp_workOrder d
                       := default [] (m !! erp_workOrder d) ++ [d]]> m) m data)
  = dom m ∪ list_to_set (erp_workOrder <$> data).
Proof.
  revert m. induction data as [|d data IH]; intros m; simpl.
  - set_solver.
  - rewrite IH, dom_insert_L. set_solver.
Qed.

Lemma elem_of_targetWOs (data : list ShortageRecord) (wo : string) :
  wo ∈ targetWOs data ↔ ∃ d, d ∈ data ∧ erp_workOrder d = wo.
Proof.
  unfold targetWOs, incomingByWO. rewrite incomingByWO_dom, dom_empty_L.
  rewrite elem_of_union, elem_of_list_to_set, list_elem_of_fmap.
  split.
  - intros [Hemp|(d & -> & Hd)]; [set_solver|eauto].
  - intros (d & Hd & <-). right. eauto.
Qed.

Lemma elem_of_incomingKeys (data : list ShortageRecord) (k : string) :
  k ∈ incomingKeys data ↔ ∃ d, d ∈ data ∧ recKey d = k.
Proof.
  unfold incomingKeys. rewrite elem_of_list_to_set, list_elem_of_fmap.
  split; intros (d & H1 & H2); eauto.
Qed.

Lemma existingMap_snoc (sched : list TrackingRow) (r : TrackingRow) :
  existingMap (sched ++ [r]) = <[rowKey r := length sched]> (existingMap sched).
Proof.
  unfold existingMap. rewrite imap_app, foldl_app. simpl.
  by rewrite Nat.add_0_r.
Qed.

(** What [existingMap.get key] returns: the last row carrying the key. *)
Lemma existingMap_Some (sched : list TrackingRow) (k : string) (i : nat) :
  existingMap sched !! k = Some i ↔
  ∃ r, sched !! i = Some r ∧ rowKey r = k ∧ lastWithKey sched i r.
Proof.
  revert i. induction sched as [|x sched IH] using rev_ind; intros i.
  - split; [done|]. by intros (r & Hr & _).
  - rewrite existingMap_snoc. destruct (decide (rowKey x = k)) as [Hk|Hk].
    + subst k. rewrite lookup_insert_eq. split.
      * intros [= <-]. exists x. split; [|split; [done|]].
        { by rewrite lookup_app_r, Nat.sub_diag by lia. }
        intros j r' Hj Hr'. apply lookup_lt_Some in Hr'.
        rewrite length_app in Hr'. simpl in Hr'. lia.
      * intros (r & Hr & Hkey & Hlast).
        destruct (decide (i = length sched)) as [->|Hne]; [done|].
        exfalso. pose proof (lookup_lt_Some _ _ _ Hr) as Hlt.
        rewrite length_app in Hlt. simpl in Hlt.
        apply (Hlast (length sched) x); [lia| |done].
        by rewrite lookup_app_r, Nat.sub_diag by lia.
    + rewrite lookup_insert_ne by done. rewrite IH. split.
      * intros (r & Hr & Hkey & Hlast). exists r.
        pose proof (lookup_lt_Some _ _ _ Hr) as Hlt.
        split; [by rewrite lookup_app_l|]. split; [done|].
        intros j r' Hj Hr'.
        destruct (decide (j < length sched)) as [Hjl|Hjl].
        -- rewrite lookup_app_l in Hr' by done. by eapply Hlast.
        -- rewrite lookup_app_r in Hr' by lia.
           destruct (j - length sched) as [|n] eqn:E; simpl in Hr'; [|done].
           injection Hr' as <-. congruence.
      * intros (r & Hr & Hkey & Hlast).
        pose proof (lookup_lt_Some _ _ _ Hr) as Hlt.
        rewrite length_app in Hlt. simpl in Hlt.
        destruct (decide (i = length sched)) as [->|Hne].
        { rewrite lookup_app_r, Nat.sub_diag in Hr by lia.
          injection Hr as <-. done. }
        exists r. rewrite lookup_app_l in Hr by lia.
        split; [done|]. split; [done|].
        intros j r' Hj Hr'. apply (Hlast j r' Hj).
        rewrite lookup_app_l; [done|]. by eapply lookup_lt_Some.
Qed.

Lemma existingMap_None (sched : list TrackingRow) (k : string) :
  existingMap sched !! k = None ↔ ∀ r, r ∈ sched → rowKey r ≠ k.
Proof.
  induction sched as [|x sched IH] using rev_ind.
  - split; [|done]. intros _ r Hr. by apply elem_of_nil in Hr.
  - rewrite existingMap_snoc. destruct (decide (rowKey x = k)) as [Hk|Hk].
    + subst k. rewrite lookup_insert_eq. split; [done|].
      intros H. exfalso. apply (H x); [|done].
      apply elem_of_app. right. by left.
    + rewrite lookup_insert_ne by done. rewrite IH. split.
      * intros H r [Hr|Hr]%elem_of_app; [by apply H|].
        apply list_elem_of_singleton in Hr as ->. done.
      * intros H r Hr. apply H. apply elem_of_app. by left.
Qed.

Lemma existingMap_lt (sched : list TrackingRow) (k : string) (i : nat) :
  existingMap sched !! k = Some i → i < length sched.
Proof.
  intros (r & Hr & _)%existingMap_Some. by eapply lookup_lt_Some.
Qed.

(* ===================================================================== *)
(** ** Replace policy *)
(* ===================================================================== *)

Lemma metadataMap_untouched (targets : gset string) (sched : list TrackingRow)
  (m : gmap string Meta) :
  (∀ r, r ∈ sched → workOrder r ∉ targets) →
  foldl (λ m r,
           if decide (workOrder r ∈ targets) then
             match m !! workOrder r with
             | None => <[workOrder r := metaOfRow r]> m
             | Some _ => m
             end
           else m) m sched = m.
Proof.
  revert m. induction sched as [|r sched IH]; intros m Hout; [done|].
  simpl. rewrite decide_False by (apply Hout; by left).
  apply IH. intros r' Hr'. apply Hout. by right.
Qed.

(** The metadata map of the replace branch is read from a schedule from
    which the target work orders have already been removed: it is always
    empty. *)
Lemma replace_metadataMap_empty (data : list ShortageRecord)
  (sched : list TrackingRow) :
  metadataMap (targetWOs data)
    (filter (λ row, workOrder row ∉ targetWOs data) sched) = ∅.
Proof.
  unfold metadataMap. apply metadataMap_untouched.
  intros r Hr. by apply list_elem_of_filter in Hr as [Hr _].
Qed.

Lemma filter_idemp {A} (P : A → Prop) `{!∀ x, Decision (P x)} (l : list A) :
  filter P (filter P l) = filter P l.
Proof.
  apply filter_all. intros x Hx. by apply list_elem_of_filter in Hx as [Hx _].
Qed.

(** The schedule left by the replace branch: the rows of the other work
    orders, then one row per record, all stamped from [defaultMeta]. *)
Lemma importShortages_replace_eq (rt : Runtime) (data : list ShortageRecord)
  (sched : list TrackingRow) :
  importShortages_replace rt data sched
  = filter (λ row, workOrder row ∉ targetWOs data) sched
    ++ imap (replaceRow rt ∅) data.
Proof.
  unfold importShortages_replace.
  by rewrite replace_metadataMap_empty, filter_idemp.
Qed.



Lemma elem_of_imap_replaceRow rt metas (data : list ShortageRecord) row :
  row ∈ imap (replaceRow rt metas) data →
  ∃ i d, data !! i = Some d ∧ row = replaceRow rt metas i d.
Proof.
  intros [i Hi]%list_elem_of_lookup. rewrite list_lookup_imap in Hi.
  destruct (data !! i) as [d|] eqn:Hd; [|done].
  injection Hi as <-. eauto.
Qed.


(** Every row created by the replace branch carries the default vendor
    and stage, and the default model unless the record has its own. *)
Lemma replace_created_defaults (rt : Runtime) (data : list ShortageRecord) row :
  row ∈ imap (replaceRow rt ∅) data →
  vendor row = "" ∧ stage row = "SMT"
  ∧ productPartNumber row = Some "" ∧ productionDate row = Some ""
  ∧ status row = Pending
  ∧ ∃ d, d ∈ data ∧ model row = or_else (erp_model d) "Unknown"
         ∧ shortageQty row = erp_shortageQty d.
Proof.
  intros (i & d & Hd & ->)%elem_of_imap_replaceRow.
  unfold replaceRow. rewrite lookup_empty. simpl.
  repeat split; try done.
  exists d. split; [by eapply list_elem_of_lookup_2|done].
Qed.

(* ===================================================================== *)
(** ** Merge policy: the update-or-add loop *)
(* ===================================================================== *)

Lemma mergeUpdate_key d r : rowKey (mergeUpdate d r) = rowKey r.
Proof. reflexivity. Qed.






Section MergeLoop.

Variable rt : Runtime.
Variable existing : gmap string nat.

Lemma updatesAt_none i data r :
  (∀ d, d ∈ data → existing !! recKey d ≠ Some i) → updatesAt existing i data r = r.
Proof.
  revert r. induction data as [|d data IH]; intros r Hno; [done|].
  unfold updatesAt. simpl. rewrite decide_False by (apply Hno; by left).
  apply IH. intros d' Hd'. apply Hno. by right.
Qed.

Lemma mergeStep_length cur i d :
  length cur ≤ length (mergeStep rt existing cur i d).
Proof.
  unfold mergeStep. destruct (existing !! recKey d).
  - by rewrite length_alter.
  - rewrite length_app. lia.
Qed.

(** A row already in the schedule receives exactly the updates made
    through its own reference. *)
Lemma mergeLoop_old data start cur i r :
  (∀ k j, existing !! k = Some j → j < length cur) →
  cur !! i = Some r →
  forEach_i (mergeStep rt existing) start data cur !! i
  = Some (updatesAt existing i data r).
Proof.
  revert start cur r. induction data as [|d data IH];
    intros start cur r Hbound Hi; [done|].
  simpl. unfold updatesAt. simpl. fold (updatesAt existing i data).
  assert (∀ k j, existing !! k = Some j →
                 j < length (mergeStep rt existing cur start d)) as Hbound'.
  { intros k j Hk. pose proof (mergeStep_length cur start d).
    specialize (Hbound k j Hk). lia. }
  apply IH; [done|].
  unfold mergeStep. destruct (existing !! recKey d) as [j|] eqn:Hd.
  - destruct (decide (j = i)) as [->|Hne].
    + rewrite decide_True by done. by rewrite list_lookup_alter_eq, Hi.
    + rewrite decide_False by congruence.
      by rewrite list_lookup_alter_ne.
  - rewrite decide_False by done. rewrite lookup_app_l; [done|].
    by eapply lookup_lt_Some.
Qed.

(** A row beyond the initial schedule was pushed by the loop for a
    record whose key had no reference, and was not touched since. *)
Lemma mergeLoop_new data start cur j r' :
  (∀ k i, existing !! k = Some i → i < length cur) →
  length cur ≤ j →
  forEach_i (mergeStep rt existing) start data cur !! j = Some r' →
  ∃ i d sibling,
    d ∈ data ∧ existing !! recKey d = None ∧ r' = mergeRow rt i d sibling.
Proof.
  revert start cur. induction data as [|d data IH];
    intros start cur Hbound Hj Hlook.
  { simpl in Hlook. apply lookup_lt_Some in Hlook. lia. }
  simpl in Hlook.
  assert (∀ k i, existing !! k = Some i →
                 i < length (mergeStep rt existing cur start d)) as Hbound'.
  { intros k i Hk. pose proof (mergeStep_length cur start d).
    specialize (Hbound k i Hk). lia. }
  destruct (decide (length (mergeStep rt existing cur start d) ≤ j)) as [Hge|Hlt].
  - destruct (IH _ _ Hbound' Hge Hlook) as (i & d' & sib & Hd' & Hnone & ->).
    exists i, d', sib. split; [by right|done].
  - unfold mergeStep in *. destruct (existing !! recKey d) as [j0|] eqn:Hd.
    { rewrite length_alter in Hlt. lia. }
    rewrite length_app in Hlt. simpl in Hlt.
    assert (j = length cur) as -> by lia.
    erewrite mergeLoop_old in Hlook; [|done|].
    2:{ by rewrite lookup_app_r, Nat.sub_diag by lia. }
    rewrite updatesAt_none in Hlook.
    + injection Hlook as <-. do 3 eexists. split; [by left|]. split; done.
    + intros d' _ Hd'. apply Hbound in Hd'. lia.
Qed.



End MergeLoop.







Lemma importShortages_rows rt data mode s :
  rows (importShortages rt data mode s).2
  = match default replace mode with
    | replace => importShortages_replace rt data (rows s)
    | merge => importShortages_merge rt data (rows s)
    end.
Proof. reflexivity. Qed.

(** The row found at an initial position after a merge import. *)
Lemma merge_lookup_old rt data sched i r :
  sched !! i = Some r →
  importShortages_merge rt data sched !! i
  = Some (sweepRow (targetWOs data) (incomingKeys data)
            (updatesAt (existingMap sched) i data r)).
Proof.
  intros Hi. unfold importShortages_merge.
  rewrite list_lookup_fmap.
  erewrite mergeLoop_old; [done| |done].
  intros k j. apply existingMap_lt.
Qed.

(* ===================================================================== *)
(** ** Merge policy: sweep and frame *)
(* ===================================================================== *)








(* ===================================================================== *)
(** ** Zero quantities *)
(* ===================================================================== *)


(** The row found beyond the initial positions after a merge import is a
    freshly pushed row, as pushed. *)
Lemma merge_lookup_new rt data sched j r' :
  length sched ≤ j →
  importShortages_merge rt data sched !! j = Some r' →
  ∃ i d sibling, d ∈ data ∧ existingMap sched !! recKey d = None
                 ∧ r' = mergeRow rt i d sibling.
Proof.
  intros Hj Hlook. unfold importShortages_merge in Hlook.
  rewrite list_lookup_fmap in Hlook.
  destruct (forEach_i _ _ _ _ !! j) as [r0|] eqn:Hr0; [|done].
  injection Hlook as <-.
  apply mergeLoop_new in Hr0 as (i & d & sib & Hd & Hnone & ->);
    [|intros k i; apply existingMap_lt|done].
  exists i, d, sib. split; [done|]. split; [done|].
  unfold sweepRow. case_decide; [|done].
  rewrite decide_False; [done|]. intros [Hnot _]. apply Hnot.
  apply elem_of_incomingKeys. by exists d.
Qed.



(* ===================================================================== *)
(** ** Uniqueness of [(workOrder, partNumber)] *)
(* ===================================================================== *)






Lemma mergeMetadata_pair info s r : rowPair (mergeMetadata info s r) = rowPair r.
Proof.
  unfold mergeMetadata.
  destruct (truthy (wo_model info)), (truthy (wo_vendor info)),
    (truthy_opt (wo_productPartNumber info)),
    (truthy_opt (wo_productionDate info)), (truthy_opt (wo_stage info));
    reflexivity.
Qed.

Lemma woTouch_pair info s r : rowPair (woTouch info s r) = rowPair r.
Proof. unfold woTouch. case_decide; [apply mergeMetadata_pair|done]. Qed.



Lemma importWODetails_rows rt data s :
  rows (importWODetails rt data s).2
  = (forEach_i (woStep rt) 0 data (rows s, 0)).1.
Proof.
  unfold importWODetails.
  destruct (forEach_i _ _ _ _) as [sched cnt]. by case_bool_decide.
Qed.

Lemma importWODetails_storage rt data s :
  localStorage (importWODetails rt data s).2 = localStorage s
  ∨ localStorage (importWODetails rt data s).2
    = Some (db (importWODetails rt data s).2).
Proof.
  unfold importWODetails.
  destruct (forEach_i _ _ _ _) as [sched cnt]. case_bool_decide; [by right|by left].
Qed.





(* ===================================================================== *)
(** ** Replace policy: what becomes of the metadata *)
(* ===================================================================== *)

(** Whatever the rows of a work order carried before, the rows a replace
    import leaves for it carry the default vendor and stage. *)
Lemma replace_rows_default_metadata (rt : Runtime) (data : list ShortageRecord)
  (s : Service) (row : TrackingRow) :
  row ∈ rows (importShortages rt data (Some replace) s).2 →
  (∃ d, d ∈ data ∧ erp_workOrder d = workOrder row) →
  vendor row = "" ∧ stage row = "SMT"
  ∧ productPartNumber row = Some "" ∧ productionDate row = Some ""
  ∧ ∃ d, d ∈ data ∧ model row = or_else (erp_model d) "Unknown".
Proof.
  rewrite importShortages_rows. simpl. rewrite importShortages_replace_eq.
  intros [Hold|Hnew]%elem_of_app Hwo.
  - apply list_elem_of_filter in Hold as [Hout _]. exfalso. apply Hout.
    by apply elem_of_targetWOs.
  - apply replace_created_defaults in Hnew
      as (Hv & Hst & Hpp & Hpd & _ & d & Hd & Hm & _).
    repeat (split; [done|]). by exists d.
Qed.

(** C1, at the failing input. Work order WO-1 is tracked with model
    ModelA, vendor VendorX, stage Assembly, product part number HALF-1 and
    production date 2024-12-01. A replace import of one shortage of WO-1
    leaves exactly one row for WO-1, reset as the claim says, but stamped
    with the defaults ['Unknown'], [''], ['SMT'] instead of the metadata
    WO-1 had. *)
Theorem replace_drops_metadata :
  let before := Sample.withRows [Sample.tracked "WO-1" "PN-0" 4] in
  let after := (importShortages Sample.rt [Sample.shortage "WO-1" "PN-1" 5]
                  (Some replace) before).2 in
  (λ r, (model r, vendor r, stage r, productPartNumber r, productionDate r))
    <$> rowsOf "WO-1" (rows before)
  = [("ModelA", "VendorX", "Assembly", Some "HALF-1", Some "2024-12-01")]
  ∧ (λ r, (model r, vendor r, stage r, productPartNumber r, productionDate r))
      <$> rowsOf "WO-1" (rows after)
    = [("Unknown", "", "SMT", Some "", Some "")]
  ∧ (λ r, (partNumber r, shortageQty r, status r, isMaterialReady r,
           isArchived r, oqcDate r, purchaserReplyDate r, purchaserRemark r))
      <$> rowsOf "WO-1" (rows after)
    = [("PN-1", 5%Z, Pending, false, false, "", "", "")].
Proof. vm_compute. repeat split. Qed.

(* ===================================================================== *)
(** ** Work-order detail import *)
(* ===================================================================== *)

Lemma sameButMetadata_refl r : sameButMetadata r r.
Proof. by destruct r. Qed.

Lemma sameButMetadata_trans r1 r2 r3 :
  sameButMetadata r1 r2 → sameButMetadata r2 r3 → sameButMetadata r1 r3.
Proof.
  unfold sameButMetadata. intros H12 H23. rewrite H23 at 1. rewrite H12 at 1.
  reflexivity.
Qed.

Lemma mergeMetadata_same info s r : sameButMetadata r (mergeMetadata info s r).
Proof.
  unfold mergeMetadata.
  destruct (truthy (wo_model info)), (truthy (wo_vendor info)),
    (truthy_opt (wo_productPartNumber info)),
    (truthy_opt (wo_productionDate info)), (truthy_opt (wo_stage info));
    destruct r; reflexivity.
Qed.

(** The five guarded assignments, field by field. *)
Lemma mergeMetadata_fields info s r :
  model (mergeMetadata info s r)
  = (if truthy (wo_model info) then wo_model info else model r)
  ∧ vendor (mergeMetadata info s r)
    = (if truthy (wo_vendor info) then wo_vendor info else vendor r)
  ∧ productPartNumber (mergeMetadata info s r)
    = (if truthy_opt (wo_productPartNumber info)
       then wo_productPartNumber info else productPartNumber r)
  ∧ productionDate (mergeMetadata info s r)
    = (if truthy_opt (wo_productionDate info)
       then wo_productionDate info else productionDate r)
  ∧ stage (mergeMetadata info s r)
    = (if truthy_opt (wo_stage info) then s else stage r).
Proof.
  unfold mergeMetadata.
  destruct (truthy (wo_model info)), (truthy (wo_vendor info)),
    (truthy_opt (wo_productPartNumber info)),
    (truthy_opt (wo_productionDate info)), (truthy_opt (wo_stage info));
    repeat split.
Qed.

Lemma woTouch_same info s r : sameButMetadata r (woTouch info s r).
Proof.
  unfold woTouch. case_decide; [apply mergeMetadata_same|apply sameButMetadata_refl].
Qed.

Lemma woTouch_workOrder info s r : workOrder (woTouch info s r) = workOrder r.
Proof. pose proof (woTouch_pair info s r) as H. by injection H. Qed.

Lemma woTouch_other info s r :
  workOrder r ≠ wo_workOrder info → woTouch info s r = r.
Proof. intros H. unfold woTouch, ofWorkOrder. by rewrite decide_False. Qed.

Lemma applyDetails_cons info data r :
  applyDetails (info :: data) r
  = applyDetails data (woTouch info (normalizeStage (wo_stage info)) r).
Proof. reflexivity. Qed.

Lemma applyDetails_workOrder data r : workOrder (applyDetails data r) = workOrder r.
Proof.
  revert r. induction data as [|info data IH]; intros r; [done|].
  by rewrite applyDetails_cons, IH, woTouch_workOrder.
Qed.

Lemma applyDetails_same data r : sameButMetadata r (applyDetails data r).
Proof.
  revert r. induction data as [|info data IH]; intros r;
    [apply sameButMetadata_refl|].
  rewrite applyDetails_cons.
  eapply sameButMetadata_trans; [apply woTouch_same|apply IH].
Qed.

Lemma applyDetails_other data r :
  (∀ info, info ∈ data → wo_workOrder info ≠ workOrder r) →
  applyDetails data r = r.
Proof.
  revert r. induction data as [|info data IH]; intros r Hother; [done|].
  rewrite applyDetails_cons, woTouch_other.
  - apply IH. intros x Hx. apply Hother. by right.
  - intros Heq. apply (Hother info); [by left|done].
Qed.

Lemma woStep_known rt sched cnt i info :
  Exists (ofWorkOrder (wo_workOrder info)) sched →
  woStep rt (sched, cnt) i info
  = (woTouch info (normalizeStage (wo_stage info)) <$> sched,
     cnt + length (filter (ofWorkOrder (wo_workOrder info)) sched)).
Proof. intros H. unfold woStep. by rewrite bool_decide_eq_true_2. Qed.

Lemma woStep_unknown rt sched cnt i info :
  ¬ Exists (ofWorkOrder (wo_workOrder info)) sched →
  woStep rt (sched, cnt) i info
  = (sched ++ [skeleton rt i info (normalizeStage (wo_stage info))], S cnt).
Proof. intros H. unfold woStep. by rewrite bool_decide_eq_false_2. Qed.

(** Shape of the schedule after the loop: the rows it started from, each
    with the batch applied, then the skeletons the loop created, each for
    a work order of the batch that the starting schedule did not have. *)
Lemma woLoop_shape rt data start sched cnt :
  ∃ extras,
    (forEach_i (woStep rt) start data (sched, cnt)).1
    = (applyDetails data <$> sched) ++ extras
    ∧ ∀ x, x ∈ extras →
        (∃ info, info ∈ data ∧ workOrder x = wo_workOrder info)
        ∧ ∀ r, r ∈ sched → workOrder x ≠ workOrder r.
Proof.
  revert start sched cnt. induction data as [|info data IH]; intros start sched cnt.
  { exists []. split.
    - simpl. rewrite app_nil_r. symmetry. apply list_fmap_id.
    - intros x Hx. by apply elem_of_nil in Hx. }
  cbn [forEach_i].
  destruct (decide (Exists (ofWorkOrder (wo_workOrder info)) sched)) as [Hex|Hex].
  - rewrite woStep_known by done.
    destruct (IH (S start)
                (woTouch info (normalizeStage (wo_stage info)) <$> sched)
                (cnt + length (filter (ofWorkOrder (wo_workOrder info)) sched)))
      as (extras & Heq & Hextras).
    exists extras. split.
    + rewrite Heq. by rewrite <- list_fmap_compose.
    + intros x Hx. destruct (Hextras x Hx) as [(i0 & Hi0 & Hw) Hne]. split.
      * exists i0. split; [by right|done].
      * intros r Hr. rewrite <- (woTouch_workOrder info (normalizeStage (wo_stage info)) r).
        apply Hne. apply list_elem_of_fmap. by exists r.
  - rewrite woStep_unknown by done.
    destruct (IH (S start)
                (sched ++ [skeleton rt start info (normalizeStage (wo_stage info))])
                (S cnt))
      as (extras & Heq & Hextras).
    assert (∀ r, r ∈ sched → workOrder r ≠ wo_workOrder info) as Hnone.
    { intros r Hr Hw. apply Hex. apply Exists_exists. by exists r. }
    exists (applyDetails data
              (skeleton rt start info (normalizeStage (wo_stage info)))
            :: extras).
    split.
    + rewrite Heq, fmap_app. simpl. rewrite <- app_assoc. simpl. f_equal.
      apply list_fmap_ext. intros i r Hr.
      rewrite applyDetails_cons, woTouch_other; [done|].
      apply Hnone. by eapply list_elem_of_lookup_2.
    + intros x [->|Hx]%elem_of_cons.
      * rewrite applyDetails_workOrder. simpl. split.
        -- exists info. split; [by left|done].
        -- intros r Hr Hw. by apply (Hnone r Hr).
      * destruct (Hextras x Hx) as [(i0 & Hi0 & Hw) Hne]. split.
        -- exists i0. split; [by right|done].
        -- intros r Hr. apply Hne. apply elem_of_app. by left.
Qed.










(* ===================================================================== *)
(** ** Row mutators *)
(* ===================================================================== *)

Lemma set_rows_same (s : Service) : set_rows (rows s) s = s.
Proof. by destruct s as [[] ?]. Qed.

Lemma fmap_unchanged {A} (f : A → A) (l : list A) :
  (∀ x, x ∈ l → f x = x) → f <$> l = l.
Proof.
  intros Hf. rewrite <- (list_fmap_id l) at 2. apply list_fmap_ext.
  intros i x Hx. apply Hf. by eapply list_elem_of_lookup_2.
Qed.

Lemma calculateStatus_cases (row : TrackingRow) :
  calculateStatus row
  = (if isMaterialReady row then Ready
     else if bool_decide (purchaserReplyDate row = "") then Pending
     else Confirmed).
Proof.
  unfold calculateStatus, truthy. destruct (isMaterialReady row); [done|].
  by rewrite negb_involutive.
Qed.

Lemma updateStageReady_rows wo stg b s :
  rows (updateStageReady wo stg b s).2
  = (λ row, if decide (in_stage wo stg row)
            then set_status (calculateStatus (set_isMaterialReady b row))
                   (set_isMaterialReady b row)
            else row) <$> rows s.
Proof. unfold updateStageReady. by case_bool_decide. Qed.

Lemma updateStageDate_rows wo stg d s :
  rows (updateStageDate wo stg d s).2
  = (λ row, if decide (in_stage wo stg row)
            then set_status (calculateStatus (set_oqcDate d row))
                   (set_oqcDate d row)
            else row) <$> rows s.
Proof. unfold updateStageDate. by case_bool_decide. Qed.

(** X1. [updateStageDate] recomputes the status of every row of the stage
    from [isMaterialReady] and [purchaserReplyDate] alone: a row that is
    not material-ready ends ['Pending'] or ['Confirmed'], also when an
    import had marked it ['Ready'] (a skeleton, a resolved shortage). *)
Theorem updateStageDate_recomputes (wo stg newDate : string) (s : Service)
  (i : nat) (r : TrackingRow) :
  rows s !! i = Some r →
  in_stage wo stg r →
  isMaterialReady r = false →
  (updateStageDate wo stg newDate s).1 = true
  ∧ ∃ r', rows (updateStageDate wo stg newDate s).2 !! i = Some r'
          ∧ r' = set_status (status r') (set_oqcDate newDate r)
          ∧ status r' = (if bool_decide (purchaserReplyDate r = "")
                         then Pending else Confirmed)
          ∧ status r' ≠ Ready.
Proof.
  intros Hi Hin Hready. split.
  - unfold updateStageDate. rewrite bool_decide_eq_true_2; [done|].
    apply Exists_exists. exists r. split; [by eapply list_elem_of_lookup_2|done].
  - eexists. rewrite updateStageDate_rows, list_lookup_fmap, Hi. simpl.
    rewrite decide_True by done. split; [done|].
    rewrite calculateStatus_cases. simpl. rewrite Hready.
    split; [done|]. split; [done|]. by case_bool_decide.
Qed.

Lemma updateStageDate_recomputes_witness :
  ∃ r', rows (updateStageDate "WO-1" "SMT" "2024-12-24"
                (importWODetails Sample.rt
                   [Sample.detail "WO-1" "ModelA" "VendorX" None]
                   (Sample.withRows [])).2).2 !! 0 = Some r'
        ∧ status r' = Pending.
Proof.
  destruct (updateStageDate_recomputes "WO-1" "SMT" "2024-12-24"
              (importWODetails Sample.rt
                 [Sample.detail "WO-1" "ModelA" "VendorX" None]
                 (Sample.withRows [])).2
              0 (skeleton Sample.rt 0
                   (Sample.detail "WO-1" "ModelA" "VendorX" None) "SMT"))
    as (_ & r' & Hr' & _ & Hst & _).
  - reflexivity.
  - by split.
  - reflexivity.
  - exists r'. split; [exact Hr'|exact Hst].
Defined.



(* ===================================================================== *)
(** ** Answers, persistence and statuses across the service *)
(* ===================================================================== *)


Lemma woStep_count rt sched cnt i info :
  cnt < (woStep rt (sched, cnt) i info).2.
Proof.
  destruct (decide (Exists (ofWorkOrder (wo_workOrder info)) sched)) as [Hex|Hex].
  - rewrite woStep_known by done. simpl.
    apply Exists_exists in Hex as (r & Hr & Hw).
    assert (r ∈ filter (ofWorkOrder (wo_workOrder info)) sched) as Hin
      by by apply list_elem_of_filter.
    destruct (filter _ sched); [by apply elem_of_nil in Hin|]. simpl. lia.
  - rewrite woStep_unknown by done. simpl. lia.
Qed.

Lemma woLoop_count rt data start sched cnt :
  cnt + length data ≤ (forEach_i (woStep rt) start data (sched, cnt)).2.
Proof.
  revert start sched cnt. induction data as [|info data IH];
    intros start sched cnt; cbn [forEach_i length]; [simpl; lia|].
  pose proof (woStep_count rt sched cnt start info) as Hlt.
  destruct (woStep rt (sched, cnt) start info) as [sched' cnt'] eqn:E.
  specialize (IH (S start) sched' cnt'). cbn [snd] in *. lia.
Qed.

Lemma importWODetails_nil (rt : Runtime) (s : Service) :
  importWODetails rt [] s = (false, s).
Proof. unfold importWODetails. simpl. by rewrite set_rows_same. Qed.

Lemma importWODetails_cons_true (rt : Runtime) info data (s : Service) :
  (importWODetails rt (info :: data) s).1 = true.
Proof.
  unfold importWODetails.
  pose proof (woLoop_count rt (info :: data) 0 (rows s) 0) as Hcnt.
  destruct (forEach_i _ _ _ _) as [sched cnt]. cbn [snd length] in Hcnt.
  rewrite bool_decide_eq_true_2; [done|lia].
Qed.

(** X3. [importWODetails] answers [true] exactly when the batch is not
    empty: every record creates a skeleton or rewrites at least one row.
    On an empty batch nothing changes and nothing is saved; otherwise the
    result is saved. *)
Theorem importWODetails_answer (rt : Runtime) (data : list WODetail)
  (s : Service) :
  ((importWODetails rt data s).1 = true ↔ data ≠ [])
  ∧ (data = [] → importWODetails rt data s = (false, s))
  ∧ (data ≠ [] →
     localStorage (importWODetails rt data s).2
     = Some (db (importWODetails rt data s).2)).
Proof.
  destruct data as [|info data].
  - rewrite importWODetails_nil. by repeat split.
  - pose proof (importWODetails_cons_true rt info data s) as Ht.
    split; [by split|]. split; [done|]. intros _.
    unfold importWODetails in *.
    destruct (forEach_i _ _ _ _) as [sched cnt]. by case_bool_decide.
Qed.

(** X4. A call that answers [false] leaves the service exactly as it was,
    in memory and in storage. *)
Theorem failure_leaves_state (rt : Runtime) (op : Op) (s : Service) :
  answer rt op s = Some false → run rt op s = s.
Proof.
  destruct op; simpl; try done; intros [= Hfalse].
  - unfold updateDeliveryDate in *. by destruct (list_find _ _) as [[??]|].
  - unfold updatePurchaserRemark in *. by destruct (list_find _ _) as [[??]|].
  - unfold updateStageDate in *. case_bool_decide as Hex; [done|]. simpl.
    rewrite fmap_unchanged; [apply set_rows_same|].
    intros r Hr. rewrite decide_False; [done|]. intros Hin. apply Hex.
    apply Exists_exists. by exists r.
  - unfold updateStageReady in *. case_bool_decide as Hex; [done|]. simpl.
    rewrite fmap_unchanged; [apply set_rows_same|].
    intros r Hr. rewrite decide_False; [done|]. intros Hin. apply Hex.
    apply Exists_exists. by exists r.
  - destruct data as [|info data]; [by rewrite importWODetails_nil|].
    pose proof (importWODetails_cons_true rt info data s). congruence.
  - unfold addUser in *. by case_bool_decide.
  - rewrite deleteUser_absent; [done|]. intros u Hu Heq.
    assert ((deleteUser name s).1 = true) as Ht
      by (apply deleteUser_result; eauto).
    congruence.
Qed.

Lemma failure_leaves_state_witness :
  run Sample.rt (OpUpdateStageDate "WO-9" "SMT" "2024-12-24")
    (Sample.withRows [Sample.tracked "WO-1" "PN-1" 5])
  = Sample.withRows [Sample.tracked "WO-1" "PN-1" 5].
Proof. apply failure_leaves_state. reflexivity. Defined.



Lemma calculateStatus_not_late row : calculateStatus row ≠ Late.
Proof.
  rewrite calculateStatus_cases.
  destruct (isMaterialReady row); [done|]. by case_bool_decide.
Qed.

Lemma noLate_fmap (f : TrackingRow → TrackingRow) sched :
  (∀ r, status r ≠ Late → status (f r) ≠ Late) →
  noLate sched → noLate (f <$> sched).
Proof.
  intros Hf Hn. unfold noLate in *. rewrite Forall_fmap.
  eapply Forall_impl; [exact Hn|]. intros r. apply Hf.
Qed.

Lemma noLate_alter (f : TrackingRow → TrackingRow) sched i :
  (∀ r, status r ≠ Late → status (f r) ≠ Late) →
  noLate sched → noLate (alter f i sched).
Proof.
  intros Hf Hn. unfold noLate in *. rewrite Forall_lookup in *.
  intros j r Hj. destruct (decide (i = j)) as [->|Hne].
  - rewrite list_lookup_alter_eq in Hj.
    destruct (sched !! j) as [r0|] eqn:E; [|done]. injection Hj as <-.
    apply Hf. by apply (Hn j).
  - rewrite list_lookup_alter_ne in Hj by done. by apply (Hn j).
Qed.

Lemma mergeUpdate_not_late d r : status r ≠ Late → status (mergeUpdate d r) ≠ Late.
Proof. unfold mergeUpdate. simpl. by case_decide. Qed.

Lemma sweepRow_not_late targets keys r :
  status r ≠ Late → status (sweepRow targets keys r) ≠ Late.
Proof. unfold sweepRow. by repeat case_decide. Qed.

Lemma mergeLoop_noLate rt existing data start cur :
  noLate cur → noLate (forEach_i (mergeStep rt existing) start data cur).
Proof.
  revert start cur. induction data as [|d data IH]; intros start cur Hn; [done|].
  simpl. apply IH. unfold mergeStep. destruct (existing !! recKey d).
  - apply noLate_alter; [apply mergeUpdate_not_late|done].
  - apply Forall_app. split; [done|]. by repeat constructor.
Qed.

Lemma woTouch_status info s r : status (woTouch info s r) = status r.
Proof.
  pose proof (woTouch_same info s r) as H. unfold sameButMetadata in H.
  by rewrite H.
Qed.

Lemma woLoop_noLate rt data start acc :
  noLate acc.1 → noLate (forEach_i (woStep rt) start data acc).1.
Proof.
  revert start acc. induction data as [|info data IH]; intros start [sched cnt] Hn;
    [done|].
  cbn [forEach_i]. apply IH.
  destruct (decide (Exists (ofWorkOrder (wo_workOrder info)) sched)) as [Hex|Hex].
  - rewrite woStep_known by done. simpl. apply noLate_fmap; [|done].
    intros r. by rewrite woTouch_status.
  - rewrite woStep_unknown by done. simpl. apply Forall_app.
    split; [done|]. by repeat constructor.
Qed.

Lemma NoLate_intro s s' :
  NoLate s → noLate (rows s') →
  (localStorage s' = localStorage s ∨ localStorage s' = Some (db s')) →
  NoLate s'.
Proof.
  intros [Hmem Hsaved] Hnew Hst. split; [done|].
  intros saved Hs. destruct Hst as [Hst|Hst]; rewrite Hst in Hs.
  - by apply Hsaved.
  - by injection Hs as <-.
Qed.

Lemma run_NoLate (rt : Runtime) (op : Op) (s : Service) :
  NoLate s → NoLate (run rt op s).
Proof.
  intros Hn. pose proof Hn as [Hmem Hsaved].
  destruct op; simpl in *; try done.
  - unfold searchTracking. simpl.
    destruct (localStorage s) as [saved|] eqn:Hs; [|done].
    split; simpl; [by apply Hsaved|]. intros saved' Hs'. apply Hsaved. congruence.
  - unfold updateDeliveryDate.
    destruct (list_find _ _) as [[i row]|]; [|done]. simpl.
    eapply NoLate_intro; [exact Hn| |by right]. unfold rows. simpl.
    apply noLate_alter; [|done]. intros r _. apply calculateStatus_not_late.
  - unfold updatePurchaserRemark.
    destruct (list_find _ _) as [[i row]|]; [|done]. simpl.
    eapply NoLate_intro; [exact Hn| |by right]. unfold rows. simpl.
    by apply noLate_alter.
  - eapply NoLate_intro; [exact Hn| |].
    + rewrite updateStageDate_rows. apply noLate_fmap; [|done].
      intros r Hr. case_decide; [apply calculateStatus_not_late|done].
    + unfold updateStageDate. case_bool_decide; [by right|by left].
  - eapply NoLate_intro; [exact Hn| |].
    + rewrite updateStageReady_rows. apply noLate_fmap; [|done].
      intros r Hr. case_decide; [apply calculateStatus_not_late|done].
    + unfold updateStageReady. case_bool_decide; [by right|by left].
  - eapply NoLate_intro; [exact Hn| |by right]. unfold rows. simpl.
    apply noLate_fmap; [|done]. intros r Hr. by case_decide.
  - eapply NoLate_intro; [exact Hn| |apply importWODetails_storage].
    rewrite importWODetails_rows. by apply woLoop_noLate.
  - eapply NoLate_intro; [exact Hn| |by right].
    unfold rows in *. simpl. destruct (default replace mode).
    + rewrite importShortages_replace_eq. apply Forall_app. split.
      * unfold noLate in *. rewrite Forall_forall in *.
        intros r [_ Hr]%list_elem_of_filter. by apply Hmem.
      * apply Forall_forall. intros r (i & d & _ & ->)%elem_of_imap_replaceRow.
        done.
    + unfold importShortages_merge. apply noLate_fmap.
      * intros r. apply sweepRow_not_late.
      * by apply mergeLoop_noLate.
  - unfold addUser. case_bool_decide; [done|].
    eapply NoLate_intro; [exact Hn|exact Hmem|by right].
  - unfold deleteUser. case_bool_decide; simpl.
    + eapply NoLate_intro; [exact Hn|exact Hmem|by right].
    + eapply NoLate_intro; [exact Hn|exact Hmem|by left].
Qed.

(** X6. No call of the service ever produces the status ['Late']: if no row
    is ['Late'] before a call, in memory and in the saved copy, none is
    afterwards; and the stage card of the view, computed over any rows
    taken from the schedule after the call, never shows [late]. *)
Theorem late_never_produced (rt : Runtime) (op : Op) (s : Service) :
  NoLate s →
  NoLate (run rt op s)
  ∧ ∀ stageRows, (∀ r, r ∈ stageRows → r ∈ rows (run rt op s)) →
      View.getStageStatus stageRows ≠ View.late.
Proof.
  intros Hn. pose proof (run_NoLate rt op s Hn) as Hn'.
  split; [done|]. intros stageRows Hsub Hlate.
  destruct Hn' as [Hrows _]. unfold noLate in Hrows.
  rewrite Forall_forall in Hrows.
  unfold View.getStageStatus in Hlate.
  repeat case_bool_decide; try done.
  match goal with H : Exists _ _ |- _ =>
    apply Exists_exists in H as (r & [_ Hr]%list_elem_of_filter & Hst) end.
  by apply (Hrows r (Hsub r Hr)).
Qed.

Lemma late_never_produced_witness :
  View.getStageStatus
    (rows (run Sample.rt
             (OpImportShortages [Sample.shortage "WO-1" "PN-2" 3] (Some merge))
             (Sample.withRows [Sample.tracked "WO-1" "PN-1" 5])))
  ≠ View.late.
Proof.
  destruct (late_never_produced Sample.rt
              (OpImportShortages [Sample.shortage "WO-1" "PN-2" 3] (Some merge))
              (Sample.withRows [Sample.tracked "WO-1" "PN-1" 5])) as [_ H].
  - split; [by apply (bool_decide_unpack _)|].
    intros saved [= <-]. by apply (bool_decide_unpack _).
  - by apply H.
Defined.

(* ===================================================================== *)
(** ** Users: adding, logging in, deleting *)
(* ===================================================================== *)

Lemma login_None (rt : Runtime) (name : string) (s : Service) :
  login rt name s = None ↔
  ∀ u, u ∈ getUsers s → toLowerCase rt (username u) ≠ toLowerCase rt name.
Proof.
  unfold login, getUsers.
  destruct (list_find _ _) as [[i u]|] eqn:Hfind.
  - split; [done|]. intros Hall. exfalso.
    apply list_find_Some in Hfind as (Hi & Hu & _).
    apply (Hall u); [by eapply list_elem_of_lookup_2|done].
  - split; [|done]. intros _ u Hu.
    rewrite list_find_None, Forall_forall in Hfind. by apply Hfind.
Qed.

(** X7. A user whose name no stored name equals up to case is added at the
    end of the collection, and from then on [login] with any spelling of
    that name that differs only by case returns that user and its
    role. *)
Theorem addUser_then_login (rt : Runtime) (user : UserRoleRow) (s : Service)
  (name : string) :
  login rt (username user) s = None →
  toLowerCase rt name = toLowerCase rt (username user) →
  (addUser rt user s).1 = true
  ∧ getUsers (addUser rt user s).2 = getUsers s ++ [user]
  ∧ login rt name (addUser rt user s).2 = Some (user, role user).
Proof.
  intros Hnone Hname. rewrite login_None in Hnone.
  unfold addUser. rewrite bool_decide_eq_false_2.
  2:{ intros (u & Hu & Heq)%Exists_exists. by apply (Hnone u). }
  simpl. split; [done|]. split; [done|].
  unfold login. simpl.
  assert (list_find (λ u, toLowerCase rt (username u) = toLowerCase rt name)
            (usersRoles (db s) ++ [user])
          = Some (length (usersRoles (db s)), user)) as ->; [|done].
  apply list_find_Some. split; [|split].
  - by rewrite lookup_app_r, Nat.sub_diag by lia.
  - done.
  - intros j y Hj Hlt. rewrite lookup_app_l in Hj by done.
    rewrite Hname. apply Hnone. by eapply list_elem_of_lookup_2.
Qed.

Lemma addUser_then_login_witness :
  login Sample.rt "ALICE"
    (addUser Sample.rt (Sample.user "Alice" SCHEDULER)
       (Sample.withUsers [Sample.user "admin" ADMIN])).2
  = Some (Sample.user "Alice" SCHEDULER, SCHEDULER).
Proof.
  destruct (addUser_then_login Sample.rt (Sample.user "Alice" SCHEDULER)
              (Sample.withUsers [Sample.user "admin" ADMIN]) "ALICE")
    as (_ & _ & H).
  - reflexivity.
  - reflexivity.
  - exact H.
Defined.

(* ===================================================================== *)
(** ** Shortage import: what is left alone *)
(* ===================================================================== *)

Lemma targetWOs_nil : targetWOs [] = ∅.
Proof. unfold targetWOs, incomingByWO. simpl. apply dom_empty_L. Qed.

(** X8. An empty shortage batch changes no row under either policy -- in
    particular the merge policy resolves nothing, since no work order is
    named --; the call still answers [true] and saves. *)
Theorem importShortages_empty (rt : Runtime) (mode : option ImportMode)
  (s : Service) :
  importShortages rt [] mode s = (true, save s).
Proof.
  assert (importShortages_replace rt [] (rows s) = rows s) as Hrep.
  { rewrite importShortages_replace_eq. simpl. rewrite app_nil_r.
    apply filter_all. intros r _. rewrite targetWOs_nil. set_solver. }
  assert (importShortages_merge rt [] (rows s) = rows s) as Hmer.
  { unfold importShortages_merge. simpl. apply fmap_unchanged.
    intros r _. unfold sweepRow. rewrite decide_False; [done|].
    rewrite targetWOs_nil. set_solver. }
  unfold importShortages.
  destruct (default replace mode); rewrite ?Hrep, ?Hmer, set_rows_same; done.
Qed.

(** X9. A merge import leaves a row exactly as it was when no record has its
    key and either the row is a skeleton or no record names its work
    order. *)
Theorem merge_untouched (rt : Runtime) (data : list ShortageRecord)
  (s : Service) (i : nat) (r : TrackingRow) :
  rows s !! i = Some r →
  (∀ d, d ∈ data → recKey d ≠ rowKey r) →
  (partNumber r = WO_INFO_ONLY
   ∨ ∀ d, d ∈ data → erp_workOrder d ≠ workOrder r) →
  rows (importShortages rt data (Some merge) s).2 !! i = Some r.
Proof.
  intros Hi Hkey Hcase. rewrite importShortages_rows. simpl.
  rewrite (merge_lookup_old _ _ _ _ _ Hi). f_equal.
  rewrite updatesAt_none.
  - unfold sweepRow. case_decide as Hwo; [|done].
    case_decide as Hsw; [|done]. exfalso. destruct Hsw as [_ Hpn].
    destruct Hcase as [Hsk|Hother]; [done|].
    apply elem_of_targetWOs in Hwo as (d & Hd & Hw). by apply (Hother d).
  - intros d Hd (r0 & Hr0 & Hk0 & _)%existingMap_Some.
    apply (Hkey d Hd). congruence.
Qed.

Lemma merge_untouched_witness :
  rows (importShortages Sample.rt [Sample.shortage "WO-1" "PN-1" 3]
          (Some merge)
          (importWODetails Sample.rt
             [Sample.detail "WO-1" "ModelA" "VendorX" None]
             (Sample.withRows [])).2).2 !! 0
  = Some (skeleton Sample.rt 0
            (Sample.detail "WO-1" "ModelA" "VendorX" None) "SMT").
Proof.
  apply merge_untouched.
  - reflexivity.
  - intros d Hd. apply list_elem_of_singleton in Hd as ->. discriminate.
  - by left.
Defined.




(* ===================================================================== *)
(** ** Merge policy: the rows it adds *)
(* ===================================================================== *)

Lemma firstOfWorkOrder_cons wo r sched :
  firstOfWorkOrder wo (r :: sched)
  = if decide (workOrder r = wo) then Some r else firstOfWorkOrder wo sched.
Proof.
  unfold firstOfWorkOrder. simpl. case_decide; [done|].
  by destruct (list_find _ sched) as [[??]|].
Qed.

Lemma firstOfWorkOrder_app wo l1 l2 :
  firstOfWorkOrder wo (l1 ++ l2)
  = match firstOfWorkOrder wo l1 with
    | Some r => Some r
    | None => firstOfWorkOrder wo l2
    end.
Proof.
  induction l1 as [|r l1 IH]; [done|].
  rewrite <- app_comm_cons, !firstOfWorkOrder_cons. by case_decide.
Qed.

Lemma firstOfWorkOrder_alter wo (f : TrackingRow → TrackingRow) k sched :
  (∀ r, workOrder (f r) = workOrder r) →
  (∀ r, metadata (f r) = metadata r) →
  inherited (firstOfWorkOrder wo (alter f k sched))
  = inherited (firstOfWorkOrder wo sched).
Proof.
  intros Hw Hm. revert k. induction sched as [|r sched IH]; intros k; [done|].
  destruct k as [|k]; simpl; rewrite !firstOfWorkOrder_cons.
  - pose proof (Hw r) as Hwr.
    destruct (decide (workOrder (f r) = wo)), (decide (workOrder r = wo));
      try congruence. simpl. apply Hm.
  - case_decide; [done|]. apply IH.
Qed.

Lemma mergeRow_metadata rt i d sibling :
  metadata (mergeRow rt i d sibling) = inherited sibling.
Proof. by destruct sibling. Qed.

Lemma mergeUpdate_metadata d r : metadata (mergeUpdate d r) = metadata r.
Proof. reflexivity. Qed.

Lemma sweepRow_metadata targets keys r :
  metadata (sweepRow targets keys r) = metadata r
  ∧ workOrder (sweepRow targets keys r) = workOrder r.
Proof. unfold sweepRow. by repeat case_decide. Qed.

(** Invariant of the update-or-add loop: looking up a sibling in the
    current schedule gives the metadata that looking it up in the
    initial schedule gives, and every pushed row carries it. *)
Lemma mergeLoop_inherits rt existing sched0 data start cur :
  (∀ wo, inherited (firstOfWorkOrder wo cur)
         = inherited (firstOfWorkOrder wo sched0)) →
  (∀ j r, length sched0 ≤ j → cur !! j = Some r →
     metadata r = inherited (firstOfWorkOrder (workOrder r) sched0)) →
  length sched0 ≤ length cur →
  ∀ j r, length sched0 ≤ j →
    forEach_i (mergeStep rt existing) start data cur !! j = Some r →
    metadata r = inherited (firstOfWorkOrder (workOrder r) sched0).
Proof.
  revert start cur. induction data as [|d data IH];
    intros start cur Hfirst Hnew Hlen j r Hj Hr; [by eapply Hnew|].
  simpl in Hr. revert Hr. apply IH; [| | |done].
  - intros wo. unfold mergeStep. destruct (existing !! recKey d) as [k|].
    + rewrite firstOfWorkOrder_alter; [apply Hfirst|done..].
    + rewrite firstOfWorkOrder_app.
      destruct (firstOfWorkOrder wo cur) as [r0|] eqn:E.
      * rewrite <- Hfirst. by rewrite E.
      * rewrite firstOfWorkOrder_cons. simpl. case_decide as Hw.
        -- simpl. rewrite mergeRow_metadata. subst wo. apply Hfirst.
        -- rewrite <- Hfirst. by rewrite E.
  - intros j' r' Hj' Hr'. unfold mergeStep in Hr'.
    destruct (existing !! recKey d) as [k|].
    + destruct (decide (k = j')) as [->|Hne].
      * rewrite list_lookup_alter_eq in Hr'.
        destruct (cur !! j') as [r0|] eqn:E; [|done]. injection Hr' as <-.
        rewrite mergeUpdate_metadata. simpl. by apply (Hnew j').
      * rewrite list_lookup_alter_ne in Hr' by done. by apply (Hnew j').
    + destruct (decide (j' < length cur)) as [Hlt|Hge].
      * rewrite lookup_app_l in Hr' by done. by apply (Hnew j').
      * rewrite lookup_app_r in Hr' by lia.
        destruct (j' - length cur) as [|n]; [|done]. injection Hr' as <-.
        rewrite mergeRow_metadata. simpl. apply Hfirst.
  - pose proof (mergeStep_length rt existing cur start d). lia.
Qed.

(** X11. Every row a merge import adds belongs to a record of the batch
    whose key no row carried, and takes its five metadata fields from
    the first row its work order had before the import -- or, if it had
    none, the defaults ['Unknown'], ['SMT'], [''], [''], ['']. *)
Theorem merge_inherits (rt : Runtime) (data : list ShortageRecord)
  (s : Service) (j : nat) (r' : TrackingRow) :
  length (rows s) ≤ j →
  rows (importShortages rt data (Some merge) s).2 !! j = Some r' →
  (∃ d, d ∈ data ∧ (∀ r, r ∈ rows s → rowKey r ≠ recKey d)
        ∧ workOrder r' = erp_workOrder d ∧ partNumber r' = erp_partNumber d
        ∧ shortageQty r' = erp_shortageQty d)
  ∧ metadata r' = inherited (firstOfWorkOrder (workOrder r') (rows s)).
Proof.
  intros Hj Hr'. rewrite importShortages_rows in Hr'. simpl in Hr'. split.
  - apply merge_lookup_new in Hr' as (i & d & sib & Hd & Hnone & ->); [|done].
    exists d. split; [done|]. split; [by apply existingMap_None|done].
  - unfold importShortages_merge in Hr'. rewrite list_lookup_fmap in Hr'.
    destruct (forEach_i _ _ _ _ !! j) as [r0|] eqn:Hr0; [|done].
    injection Hr' as <-.
    destruct (sweepRow_metadata (targetWOs data) (incomingKeys data) r0)
      as [-> ->].
    eapply mergeLoop_inherits; [| | | |exact Hr0]; try done.
    intros j' r1 Hj' Hr1. apply lookup_lt_Some in Hr1. lia.
Qed.

Lemma merge_inherits_witness :
  metadata
    (mergeRow Sample.rt 0 (Sample.shortage "WO-1" "PN-2" 3)
       (Some (Sample.tracked "WO-1" "PN-1" 5)))
  = ("ModelA", "Assembly", "VendorX", Some "HALF-1", Some "2024-12-01").
Proof.
  destruct (merge_inherits Sample.rt [Sample.shortage "WO-1" "PN-2" 3]
              (Sample.withRows [Sample.tracked "WO-1" "PN-1" 5]) 1
              (mergeRow Sample.rt 0 (Sample.shortage "WO-1" "PN-2" 3)
                 (Some (Sample.tracked "WO-1" "PN-1" 5)))) as [_ H].
  - simpl. lia.
  - reflexivity.
  - exact H.
Defined.





(* ===================================================================== *)
(** ** Work-order details: importing the same batch again *)
(* ===================================================================== *)

(** The value a guarded field holds after a batch: the last value
    written by a record naming the work order, else the initial one. *)
Lemma lastWrite_idemp {B} (g : WODetail → bool) (v : WODetail → B)
  (wo : string) (data : list WODetail) (a : B) :
  let write := λ (acc : B) (info : WODetail),
    if decide (wo = wo_workOrder info)
    then (if g info then v info else acc) else acc in
  foldl write (foldl write a data) data = foldl write a data.
Proof.
  intros write. induction data as [|x data IH] using rev_ind; [done|].
  rewrite !foldl_app. simpl.
  assert ((∀ z, write z x = z) ∨ (∀ z, write z x = v x)) as [Hx|Hx].
  { unfold write. destruct (decide (wo = wo_workOrder x)); [|by left].
    destruct (g x); [by right|by left]. }
  - by rewrite !Hx.
  - by rewrite !Hx.
Qed.

Lemma applyDetails_lastWrite {B} (f : TrackingRow → B) (g : WODetail → bool)
  (v : WODetail → B) (wo : string) (data : list WODetail) (r : TrackingRow) :
  (∀ info row,
     f (mergeMetadata info (normalizeStage (wo_stage info)) row)
     = if g info then v info else f row) →
  workOrder r = wo →
  f (applyDetails data r)
  = foldl (λ (acc : B) (info : WODetail),
             if decide (wo = wo_workOrder info)
             then (if g info then v info else acc) else acc)
          (f r) data.
Proof.
  intros Hf. revert r. induction data as [|x data IH]; intros r Hw; [done|].
  rewrite applyDetails_cons, IH by (by rewrite woTouch_workOrder).
  simpl. f_equal. unfold woTouch, ofWorkOrder. subst wo.
  destruct (decide (workOrder r = wo_workOrder x)); [apply Hf|done].
Qed.

Lemma applyDetails_field_idemp {B} (f : TrackingRow → B) (g : WODetail → bool)
  (v : WODetail → B) (data : list WODetail) (r : TrackingRow) :
  (∀ info row,
     f (mergeMetadata info (normalizeStage (wo_stage info)) row)
     = if g info then v info else f row) →
  f (applyDetails data (applyDetails data r)) = f (applyDetails data r).
Proof.
  intros Hf.
  rewrite (applyDetails_lastWrite f g v (workOrder r) data
             (applyDetails data r) Hf (applyDetails_workOrder data r)).
  rewrite (applyDetails_lastWrite f g v (workOrder r) data r Hf eq_refl).
  apply (lastWrite_idemp g v (workOrder r) data (f r)).
Qed.

Lemma applyDetails_idemp (data : list WODetail) (r : TrackingRow) :
  applyDetails data (applyDetails data r) = applyDetails data r.
Proof.
  pose proof (applyDetails_same data r) as Hy.
  pose proof (sameButMetadata_trans _ _ _ Hy
                (applyDetails_same data (applyDetails data r))) as Hx.
  unfold sameButMetadata in Hx, Hy. rewrite Hx. rewrite Hy at 6.
  rewrite (applyDetails_field_idemp model (λ i, truthy (wo_model i)) wo_model).
  2:{ intros info row. by destruct (mergeMetadata_fields info
        (normalizeStage (wo_stage info)) row) as (-> & _). }
  rewrite (applyDetails_field_idemp vendor (λ i, truthy (wo_vendor i)) wo_vendor).
  2:{ intros info row. by destruct (mergeMetadata_fields info
        (normalizeStage (wo_stage info)) row) as (_ & -> & _). }
  rewrite (applyDetails_field_idemp productPartNumber
             (λ i, truthy_opt (wo_productPartNumber i)) wo_productPartNumber).
  2:{ intros info row. by destruct (mergeMetadata_fields info
        (normalizeStage (wo_stage info)) row) as (_ & _ & -> & _). }
  rewrite (applyDetails_field_idemp productionDate
             (λ i, truthy_opt (wo_productionDate i)) wo_productionDate).
  2:{ intros info row. by destruct (mergeMetadata_fields info
        (normalizeStage (wo_stage info)) row) as (_ & _ & _ & -> & _). }
  rewrite (applyDetails_field_idemp stage
             (λ i, truthy_opt (wo_stage i))
             (λ i, normalizeStage (wo_stage i))).
  2:{ intros info row. by destruct (mergeMetadata_fields info
        (normalizeStage (wo_stage info)) row) as (_ & _ & _ & _ & ->). }
  done.
Qed.

Lemma skeleton_fixed rt i info :
  woTouch info (normalizeStage (wo_stage info))
    (skeleton rt i info (normalizeStage (wo_stage info)))
  = skeleton rt i info (normalizeStage (wo_stage info)).
Proof.
  unfold woTouch, mergeMetadata. case_decide; [|done].
  destruct (truthy (wo_model info)), (truthy (wo_vendor info)),
    (truthy_opt (wo_productPartNumber info)),
    (truthy_opt (wo_productionDate info)), (truthy_opt (wo_stage info));
    reflexivity.
Qed.

Lemma applyDetails_app d1 d2 r :
  applyDetails (d1 ++ d2) r = applyDetails d2 (applyDetails d1 r).
Proof. unfold applyDetails. by rewrite foldl_app. Qed.

(** Invariant of the loop: the work order of every record already
    processed has a row, and every row, once the rest of the batch is
    applied, is left unchanged by the whole batch. *)
Lemma woLoop_fixed rt pre data start sched cnt :
  (∀ p, p ∈ pre → ∃ r, r ∈ sched ∧ workOrder r = wo_workOrder p) →
  (∀ r, r ∈ sched →
     applyDetails (pre ++ data) (applyDetails data r) = applyDetails data r) →
  (∀ p, p ∈ pre ++ data →
     ∃ r, r ∈ (forEach_i (woStep rt) start data (sched, cnt)).1
          ∧ workOrder r = wo_workOrder p)
  ∧ (∀ r, r ∈ (forEach_i (woStep rt) start data (sched, cnt)).1 →
       applyDetails (pre ++ data) r = r).
Proof.
  revert pre start sched cnt. induction data as [|info data IH];
    intros pre start sched cnt Hcov Hfix.
  { simpl. rewrite app_nil_r in *. split; [done|]. intros r Hr. by apply Hfix. }
  cbn [forEach_i].
  replace (pre ++ info :: data) with ((pre ++ [info]) ++ data) in *
    by (by rewrite <- app_assoc).
  destruct (decide (Exists (ofWorkOrder (wo_workOrder info)) sched)) as [Hex|Hex].
  - rewrite woStep_known by done. apply IH.
    + intros p [Hp|Hp]%elem_of_app.
      * destruct (Hcov p Hp) as (r & Hr & Hw).
        exists (woTouch info (normalizeStage (wo_stage info)) r).
        split; [apply list_elem_of_fmap; eauto|by rewrite woTouch_workOrder].
      * apply list_elem_of_singleton in Hp as ->.
        apply Exists_exists in Hex as (r & Hr & Hw).
        exists (woTouch info (normalizeStage (wo_stage info)) r).
        split; [apply list_elem_of_fmap; eauto|by rewrite woTouch_workOrder].
    + intros r' (r & -> & Hr)%list_elem_of_fmap.
      rewrite <- applyDetails_cons. by apply Hfix.
  - rewrite woStep_unknown by done.
    assert (∀ r, r ∈ sched → workOrder r ≠ wo_workOrder info) as Hnone.
    { intros r Hr Hw. apply Hex. apply Exists_exists. by exists r. }
    apply IH.
    + intros p [Hp|Hp]%elem_of_app.
      * destruct (Hcov p Hp) as (r & Hr & Hw). exists r.
        split; [apply elem_of_app; by left|done].
      * apply list_elem_of_singleton in Hp as ->. eexists.
        split; [apply elem_of_app; right; by left|done].
    + intros r [Hr|Hr]%elem_of_app.
      * specialize (Hfix r Hr).
        rewrite applyDetails_cons, woTouch_other in Hfix by (by apply Hnone).
        exact Hfix.
      * apply list_elem_of_singleton in Hr as ->.
        set (sk := skeleton rt start info (normalizeStage (wo_stage info))).
        rewrite <- app_assoc, applyDetails_app.
        change ([info] ++ data) with (info :: data).
        rewrite (applyDetails_other pre).
        2:{ intros p Hp Hw. rewrite applyDetails_workOrder in Hw. simpl in Hw.
            destruct (Hcov p Hp) as (r & Hr & Hwr).
            apply (Hnone r Hr). congruence. }
        assert (applyDetails data sk = applyDetails (info :: data) sk) as ->.
        { rewrite applyDetails_cons. unfold sk. by rewrite skeleton_fixed. }
        apply applyDetails_idemp.
Qed.

(** X13. Importing the same work-order batch a second time changes nothing:
    no skeleton is added and every row, metadata included, is as the
    first import left it. *)
Theorem importWODetails_again (rt rt' : Runtime) (data : list WODetail)
  (s : Service) :
  db (importWODetails rt' data (importWODetails rt data s).2).2
  = db (importWODetails rt data s).2.
Proof.
  set (s1 := (importWODetails rt data s).2).
  assert (rows (importWODetails rt' data s1).2 = rows s1) as Hrows.
  { rewrite importWODetails_rows.
    destruct (woLoop_fixed rt [] data 0 (rows s) 0) as [Hcov Hfix].
    { intros p Hp. by apply elem_of_nil in Hp. }
    { intros r _. simpl. apply applyDetails_idemp. }
    simpl in Hcov, Hfix. fold (rows s1) in *.
    rewrite <- importWODetails_rows in Hcov, Hfix. fold s1 in Hcov, Hfix.
    destruct (woLoop_shape rt' data 0 (rows s1) 0) as (extras & -> & Hextras).
    destruct extras as [|x extras].
    - rewrite app_nil_r. by apply fmap_unchanged.
    - exfalso. destruct (Hextras x ltac:(by left)) as [(p & Hp & Hw) Hne].
      destruct (Hcov p Hp) as (r & Hr & Hwr). apply (Hne r Hr). congruence. }
  unfold importWODetails in *.
  destruct (forEach_i (woStep rt') 0 data (rows s1, 0)) as [sched cnt].
  assert (sched = rows s1) as ->.
  { revert Hrows. by case_bool_decide. }
  assert (db (set_rows (rows s1) s1) = db s1) as Hdb
    by by rewrite set_rows_same.
  by case_bool_decide.
Qed.

